(** * node-tree-sitter-compiler: the grammar bridge of [src/compile.cc]

    A shallow embedding of the three functions of [compile.cc]
    ([RuleFromJsRule], [GrammarFromJsGrammar] and the [Compile] method) and
    the properties of the rule builder, the grammar assembler and the
    compilation invoker that follow from the code.

    The C++ code talks to two libraries: V8 (through NAN), whose values are
    untyped, and the tree-sitter compiler, which owns the rule and grammar
    types.  Both are modelled below, as far as [compile.cc] uses them. *)

From Stdlib Require Import List String Ascii ZArith Lia Bool Arith DecimalString.
Import ListNotations.

Set Warnings "-register-all".
Local Open Scope string_scope.
Local Open Scope list_scope.

(* ================================================================== *)
(** * JavaScript values *)

(** The values a grammar description is made of.  A number is kept at its
    integer value (a precedence level is all the code reads from one), a
    string as the bytes [String::Utf8Value] yields for it, an object as the
    list of its own enumerable properties in enumeration order. *)
Inductive JsValue : Type :=
| JsUndefined
| JsNull
| JsBoolean (b : bool)
| JsNumber (n : Z)
| JsString (s : string)
| JsArray (elems : list JsValue)
| JsObject (props : list (string * JsValue)).

Definition IsUndefined (v : JsValue) : bool :=
  match v with JsUndefined => true | _ => false end.

Definition IsString (v : JsValue) : bool :=
  match v with JsString _ => true | _ => false end.

Definition IsArray (v : JsValue) : bool :=
  match v with JsArray _ => true | _ => false end.

(** [Value::IsObject]: arrays are objects too. *)
Definition IsObject (v : JsValue) : bool :=
  match v with JsArray _ | JsObject _ => true | _ => false end.

(** Nesting depth of a value: the measure the rule builder descends along. *)
Fixpoint depth (v : JsValue) : nat :=
  match v with
  | JsArray elems => S (list_max (map depth elems))
  | JsObject props => S (list_max (map (fun p => depth (snd p)) props))
  | _ => 0
  end.

(** The name of the array index [i], as [GetOwnPropertyNames] lists it. *)
Definition index_name (i : nat) : string :=
  NilEmpty.string_of_uint (Nat.to_uint i).

(** A [std::string] built from a character pointer, as [StringFromJsString]
    builds its result: the text ends at the first NUL character. *)
Fixpoint c_str (s : string) : string :=
  match s with
  | EmptyString => EmptyString
  | String c rest => if Ascii.eqb c Ascii.zero then EmptyString else String c (c_str rest)
  end.

(** [Object::Get] with a string key on a plain object: the own property of
    that name, [undefined] when there is none.  (None of the names the code
    asks for lives on [Object.prototype] or [Array.prototype].) *)
Fixpoint own_property (props : list (string * JsValue)) (key : string) : JsValue :=
  match props with
  | [] => JsUndefined
  | (k, v) :: rest => if String.eqb k key then v else own_property rest key
  end.

(** [Object::Get] on an array: an element under its index name, the length
    under ["length"], [undefined] otherwise. *)
Fixpoint array_element (elems : list JsValue) (i : nat) (key : string) : JsValue :=
  match elems with
  | [] => JsUndefined
  | e :: rest => if String.eqb (index_name i) key then e else array_element rest (S i) key
  end.

Definition array_property (elems : list JsValue) (key : string) : JsValue :=
  if String.eqb key "length" then JsNumber (Z.of_nat (List.length elems))
  else array_element elems 0 key.

(** Whether a plain object has an own property of that name. *)
Definition has_own_property (props : list (string * JsValue)) (key : string) : bool :=
  existsb (fun p => String.eqb (fst p) key) props.

(** The number routines of V8 and of the C++ compiler that the bridge relies
    on without fixing their result: the printing of a number beyond the
    integers a double holds exactly, the reading of a string as an integer,
    the [int64_t] made of a number outside the range of that type, and the
    value a rule constructor receives for a level outside the range of
    [int]. *)
Record Conversions : Type := {
  NumberToString : Z -> string;
  StringToInteger : string -> Z;
  NumberToInt64 : Z -> Z;
  Int64ToLevel : Z -> Z
}.

(* ================================================================== *)
(** * Rules and grammars of the tree-sitter compiler *)

(** Modelled from the spec: [tree_sitter/compiler.h], which declares
    [rule_ptr], the rule constructors, [Grammar], [GrammarError] and
    [compile], is not part of the sources.  The Rule Node variants are those
    of the data model, one per constructor function the code calls.  A
    [rule_ptr] is a shared pointer and may be null; a constructor stores the
    pointers it is handed without looking at them. *)
Inductive Rule : Type :=
| Blank
| StringLiteral (text : string)
| Pattern (regex_text : string)
| Symbol (name : string)
| Sequence (members : list (option Rule))
| Choice (members : list (option Rule))
| Repeat (child : option Rule)
| Repeat1 (child : option Rule)
| Precedence (level : Z) (child : option Rule)
| PrecedenceLeft (level : Z) (child : option Rule)
| PrecedenceRight (level : Z) (child : option Rule)
| Token (child : option Rule)
| ErrorRecovery (child : option Rule).

Definition rule_ptr : Type := option Rule.

(** [rule_ptr()], the null pointer, and [rule.get()] used as a condition. *)
Definition null : rule_ptr := None.

Definition get (rule : rule_ptr) : bool :=
  match rule with Some _ => true | None => false end.

Definition blank : rule_ptr := Some Blank.
Definition choice (members : list rule_ptr) : rule_ptr := Some (Choice members).
Definition err (rule : rule_ptr) : rule_ptr := Some (ErrorRecovery rule).
Definition pattern (value : string) : rule_ptr := Some (Pattern value).
Definition repeat (rule : rule_ptr) : rule_ptr := Some (Repeat rule).
Definition repeat1 (rule : rule_ptr) : rule_ptr := Some (Repeat1 rule).
Definition seq (members : list rule_ptr) : rule_ptr := Some (Sequence members).
Definition str (value : string) : rule_ptr := Some (StringLiteral value).
Definition prec (level : Z) (rule : rule_ptr) : rule_ptr := Some (Precedence level rule).
Definition prec_left (level : Z) (rule : rule_ptr) : rule_ptr := Some (PrecedenceLeft level rule).
Definition prec_right (level : Z) (rule : rule_ptr) : rule_ptr := Some (PrecedenceRight level rule).
Definition token (rule : rule_ptr) : rule_ptr := Some (Token rule).
Definition sym (name : string) : rule_ptr := Some (Symbol name).

(** Modelled from the spec: a [Grammar] is the ordered list of named rules
    plus the list of ubiquitous tokens, empty until
    [result.ubiquitous_tokens(...)] sets it. *)
Record Grammar : Type := {
  rules : list (string * rule_ptr);
  ubiquitous_tokens : list rule_ptr
}.

(** The constructor [Grammar(rules)]. *)
Definition Grammar_of (rules : list (string * rule_ptr)) : Grammar :=
  {| rules := rules; ubiquitous_tokens := [] |}.

(** The setter [grammar.ubiquitous_tokens(tokens)]. *)
Definition set_ubiquitous_tokens (grammar : Grammar) (tokens : list rule_ptr) : Grammar :=
  {| rules := rules grammar; ubiquitous_tokens := tokens |}.

(** Modelled from the spec: the compiler's structured error, of which the
    code reads the [message]. *)
Record GrammarError : Type := { message : string }.

(* ================================================================== *)
(** * The V8 isolate: exceptions and the trace of compiler calls *)

Inductive ErrorConstructor : Type := Error | TypeError.

(** A JavaScript error object: which constructor made it, its message, and
    whether its [isGrammarError] property was set to [true]. *)
Record JsException : Type := {
  error_type : ErrorConstructor;
  error_message : string;
  isGrammarError : bool
}.

(** What a call of the bridge can change: the exception scheduled to be
    thrown when control returns to JavaScript, and (for the properties below)
    the arguments of each call made to [tree_sitter::compile]. *)
Record Isolate : Type := {
  scheduled_exception : option JsException;
  compiler_calls : list (Grammar * string)
}.

Definition fresh_isolate : Isolate :=
  {| scheduled_exception := None; compiler_calls := [] |}.

(** The outcome of running a piece of the code.  [UndefinedBehaviour] marks
    the places where the code uses a handle at a type it was cast to without
    a check ([Handle<Array>::Cast] on a value that is no array, [Object::Get]
    on a value that is no object), for which V8 defines no result, and the
    place where it builds a [std::string] from a null pointer, for which C++
    defines none: the call does not return to its caller as the code has it.
    [OutOfFuel] only arises in the fuelled recursion below. *)
Inductive Outcome (A : Type) : Type :=
| Returns (a : A) (iso : Isolate)
| UndefinedBehaviour
| OutOfFuel.

Arguments Returns {A} a iso.
Arguments UndefinedBehaviour {A}.
Arguments OutOfFuel {A}.

Definition M (A : Type) : Type := Isolate -> Outcome A.

Definition ret {A : Type} (a : A) : M A := fun iso => Returns a iso.

Definition bind {A B : Type} (m : M A) (k : A -> M B) : M B :=
  fun iso =>
    match m iso with
    | Returns a iso' => k a iso'
    | UndefinedBehaviour => UndefinedBehaviour
    | OutOfFuel => OutOfFuel
    end.

Definition undefined_behaviour {A : Type} : M A := fun _ => UndefinedBehaviour.
Definition out_of_fuel {A : Type} : M A := fun _ => OutOfFuel.

Declare Scope bridge_scope.
Delimit Scope bridge_scope with bridge.
Notation "x <- c1 ;; c2" := (bind c1 (fun x => c2))
  (at level 61, c1 at next level, right associativity) : bridge_scope.
Notation "c1 ;; c2" := (bind c1 (fun _ => c2))
  (at level 61, right associativity) : bridge_scope.
Local Open Scope bridge_scope.

(** [v8::ThrowException]: the exception is scheduled, replacing one scheduled
    before; the C++ code goes on running. *)
Definition ThrowException (e : JsException) : M unit :=
  fun iso => Returns tt {| scheduled_exception := Some e;
                           compiler_calls := compiler_calls iso |}.

Definition NanError (msg : string) : JsException :=
  {| error_type := Error; error_message := msg; isGrammarError := false |}.

Definition NanTypeError (msg : string) : JsException :=
  {| error_type := TypeError; error_message := msg; isGrammarError := false |}.

Definition NanThrowError (msg : string) : M unit := ThrowException (NanError msg).
Definition NanThrowTypeError (msg : string) : M unit := ThrowException (NanTypeError msg).

(** [ObjectGet<T>(object, key)]: [object->Get(key)], cast to [T] unchecked. *)
Definition ObjectGet (object : JsValue) (key : string) : M JsValue :=
  match object with
  | JsObject props => ret (own_property props key)
  | JsArray elems => ret (array_property elems key)
  | _ => undefined_behaviour
  end.

(** [array->Length()] together with [ArrayGet<T>(array, i)] for every
    [i < length]: the elements, in index order. *)
Definition ArrayElements (array : JsValue) : M (list JsValue) :=
  match array with
  | JsArray elems => ret elems
  | _ => undefined_behaviour
  end.

(** [object->GetOwnPropertyNames()]: the own enumerable property names in
    enumeration order; for an array, its indices. *)
Definition GetOwnPropertyNames (object : JsValue) : M (list JsValue) :=
  match object with
  | JsObject props => ret (map (fun p => JsString (fst p)) props)
  | JsArray elems => ret (map (fun i => JsString (index_name i)) (List.seq 0 (List.length elems)))
  | _ => undefined_behaviour
  end.

(* ================================================================== *)
(** * The code of [compile.cc] *)

Section Bridge.

(** The conversions left to the libraries, and the tree-sitter compiler
    itself, which answers with the generated code and, on failure, an
    error. *)
Variable V8 : Conversions.
Variable tree_sitter_compile : Grammar -> string -> string * option GrammarError.

(** [ToString] on a number: the decimal numeral of an integer that a double
    holds exactly (up to 2^53 in magnitude); beyond that V8 prints the
    shortest digits that read back as the number, in exponent form from
    1e21 on. *)
Definition number_to_string (n : Z) : string :=
  if (Z.abs n <=? 2 ^ 53)%Z then NilZero.string_of_int (Z.to_int n)
  else NumberToString V8 n.

(** [ToString], the conversion [String::Utf8Value] applies to its argument;
    [None] when the conversion throws.  A plain object prints as
    "[object Object]" through [Object.prototype.toString]; an own [toString]
    property (which, being data, cannot be called) leaves it without a
    primitive value, a TypeError.  An array prints its elements joined by
    commas. *)
Fixpoint ToString (v : JsValue) : option string :=
  match v with
  | JsUndefined => Some "undefined"
  | JsNull => Some "null"
  | JsBoolean true => Some "true"
  | JsBoolean false => Some "false"
  | JsNumber n => Some (number_to_string n)
  | JsString s => Some s
  | JsArray elems =>
      (* Array.prototype.join: undefined and null elements print as nothing *)
      let item e :=
        match e with
        | JsUndefined | JsNull => Some ""
        | _ => ToString e
        end in
      let items :=
        (fix items (l : list JsValue) : option (list string) :=
           match l with
           | [] => Some []
           | e :: rest =>
               match item e, items rest with
               | Some text, Some texts => Some (text :: texts)
               | _, _ => None
               end
           end) in
      match items elems with
      | Some texts => Some (String.concat "," texts)
      | None => None
      end
  | JsObject props =>
      if has_own_property props "toString" then None else Some "[object Object]"
  end.

(** [StringFromJsString]: the UTF-8 text of the value's string conversion,
    copied into a C++ string.  [String::Utf8Value] catches the exception of
    a conversion that throws and is left empty; its null pointer then goes
    into the [std::string] constructor, for which C++ defines no result. *)
Definition StringFromJsString (js_string : JsValue) : M string :=
  match ToString js_string with
  | Some utf8_string => ret (c_str utf8_string)
  | None => undefined_behaviour
  end.

(** The [int64_t] of a number. *)
Definition number_to_int64 (n : Z) : Z :=
  if ((- 2 ^ 63 <=? n) && (n <? 2 ^ 63))%Z then n else NumberToInt64 V8 n.

(** The exception V8 raises when an object has no primitive value. *)
Definition no_primitive_value : JsException :=
  NanTypeError "Cannot convert object to primitive value".

(** [value->IntegerValue()]: a number yields its [int64_t]; any other value
    goes through [ToInteger] first.  [undefined] and a plain object give NaN
    and thus 0; an object or array without a primitive value makes V8
    schedule its TypeError, and 0 is returned. *)
Definition IntegerValue (value : JsValue) : M Z :=
  match value with
  | JsNumber n => ret (number_to_int64 n)
  | JsUndefined => ret 0%Z
  | JsNull => ret 0%Z
  | JsBoolean b => ret (if b then 1 else 0)%Z
  | JsString s => ret (StringToInteger V8 s)
  | JsArray _ =>
      match ToString value with
      | Some text => ret (StringToInteger V8 text)
      | None => ThrowException no_primitive_value ;; ret 0%Z
      end
  | JsObject props =>
      if has_own_property props "toString"
      then ThrowException no_primitive_value ;; ret 0%Z
      else ret 0%Z
  end.

(** The level as a rule constructor receives it: the [int64_t] passes
    through the constructor's integer parameter, which holds at least the
    values of an [int]. *)
Definition to_level (level : Z) : Z :=
  if ((- 2 ^ 31 <=? level) && (level <? 2 ^ 31))%Z then level else Int64ToLevel V8 level.

(** The loop of the [CHOICE] and [SEQ] branches: members are built in index
    order and pushed onto [members]; the first null member ends the whole
    call with a null pointer ([None] here). *)
Fixpoint members_loop (RuleFromJsRule : JsValue -> M rule_ptr)
    (js_members : list JsValue) (members : list rule_ptr)
    : M (option (list rule_ptr)) :=
  match js_members with
  | [] => ret (Some members)
  | js_member :: rest =>
      member <- RuleFromJsRule js_member ;;
      if get member then members_loop RuleFromJsRule rest (members ++ [member])
      else ret None
  end.

(** The body of [RuleFromJsRule], with the recursive calls made through its
    first argument. *)
Definition RuleFromJsRule_body (RuleFromJsRule : JsValue -> M rule_ptr)
    (js_rule : JsValue) : M rule_ptr :=
  if negb (IsObject js_rule) then
    NanThrowTypeError "Expected rule to be an object" ;;
    ret null
  else
    js_type <- ObjectGet js_rule "type" ;;
    if negb (IsString js_type) then
      NanThrowTypeError "Expected rule type to be a string" ;;
      ret null
    else
      type <- StringFromJsString js_type ;;
      if String.eqb type "BLANK" then
        ret blank
      else if String.eqb type "CHOICE" then
        js_members <- ObjectGet js_rule "members" ;;
        elems <- ArrayElements js_members ;;
        members <- members_loop RuleFromJsRule elems [] ;;
        match members with
        | Some members => ret (choice members)
        | None => ret null
        end
      else if String.eqb type "ERROR" then
        js_value <- ObjectGet js_rule "value" ;;
        value <- RuleFromJsRule js_value ;;
        ret (err value)
      else if String.eqb type "PATTERN" then
        js_value <- ObjectGet js_rule "value" ;;
        value <- StringFromJsString js_value ;;
        ret (pattern value)
      else if String.eqb type "REPEAT" then
        js_value <- ObjectGet js_rule "value" ;;
        value <- RuleFromJsRule js_value ;;
        ret (repeat value)
      else if String.eqb type "REPEAT1" then
        js_value <- ObjectGet js_rule "value" ;;
        value <- RuleFromJsRule js_value ;;
        ret (repeat1 value)
      else if String.eqb type "SEQ" then
        js_members <- ObjectGet js_rule "members" ;;
        elems <- ArrayElements js_members ;;
        members <- members_loop RuleFromJsRule elems [] ;;
        match members with
        | Some members => ret (seq members)
        | None => ret null
        end
      else if String.eqb type "STRING" then
        js_value <- ObjectGet js_rule "value" ;;
        value <- StringFromJsString js_value ;;
        ret (str value)
      else if String.eqb type "PREC" then
        js_child <- ObjectGet js_rule "rule" ;;
        rule <- RuleFromJsRule js_child ;;
        if get rule then
          js_value <- ObjectGet js_rule "value" ;;
          level <- IntegerValue js_value ;;
          ret (prec (to_level level) rule)
        else ret null
      else if String.eqb type "PREC_LEFT" then
        js_child <- ObjectGet js_rule "rule" ;;
        rule <- RuleFromJsRule js_child ;;
        if get rule then
          js_value <- ObjectGet js_rule "value" ;;
          level <- IntegerValue js_value ;;
          ret (prec_left (to_level level) rule)
        else ret null
      else if String.eqb type "PREC_RIGHT" then
        js_child <- ObjectGet js_rule "rule" ;;
        rule <- RuleFromJsRule js_child ;;
        if get rule then
          js_value <- ObjectGet js_rule "value" ;;
          level <- IntegerValue js_value ;;
          ret (prec_right (to_level level) rule)
        else ret null
      else if String.eqb type "TOKEN" then
        js_value <- ObjectGet js_rule "value" ;;
        value <- RuleFromJsRule js_value ;;
        if get value then ret (token value)
        else ret null
      else if String.eqb type "SYMBOL" then
        js_name <- ObjectGet js_rule "name" ;;
        name <- StringFromJsString js_name ;;
        ret (sym name)
      else
        NanThrowError ("Unexpected rule type: " ++ type) ;;
        ret null.

(** The recursion, bounded by a number of nested calls. *)
Fixpoint RuleFromJsRule_fuel (fuel : nat) : JsValue -> M rule_ptr :=
  match fuel with
  | O => fun _ => out_of_fuel
  | S fuel' => RuleFromJsRule_body (RuleFromJsRule_fuel fuel')
  end.

(** [RuleFromJsRule]: every recursive call descends into the value, so one
    call more than the value's nesting depth is enough (see
    [RuleFromJsRule_fuel_enough] and [RuleFromJsRule_unfold]). *)
Definition RuleFromJsRule (js_rule : JsValue) : M rule_ptr :=
  RuleFromJsRule_fuel (S (depth js_rule)) js_rule.

(** [object->Get(key)] with a key that is a value: the names the code passes
    are the strings [GetOwnPropertyNames] listed. *)
Definition Get (object key : JsValue) : M JsValue :=
  match key with
  | JsString name => ObjectGet object name
  | _ => undefined_behaviour
  end.

(** The first loop of [GrammarFromJsGrammar], over the names of [js_rules]. *)
Fixpoint rules_loop (js_rules : JsValue) (rule_names : list JsValue)
    (rules : list (string * rule_ptr)) : M (option (list (string * rule_ptr))) :=
  match rule_names with
  | [] => ret (Some rules)
  | js_rule_name :: rest =>
      rule_name <- StringFromJsString js_rule_name ;;
      js_rule <- Get js_rules js_rule_name ;;
      rule <- RuleFromJsRule js_rule ;;
      if get rule then rules_loop js_rules rest (rules ++ [(rule_name, rule)])
      else ret None
  end.

(** Its second loop, over the ubiquitous tokens: every result is pushed,
    null or not. *)
Fixpoint ubiquitous_loop (js_ubiquitous_tokens : list JsValue)
    (ubiquitous_tokens : list rule_ptr) : M (list rule_ptr) :=
  match js_ubiquitous_tokens with
  | [] => ret ubiquitous_tokens
  | js_token :: rest =>
      rule <- RuleFromJsRule js_token ;;
      ubiquitous_loop rest (ubiquitous_tokens ++ [rule])
  end.

Definition GrammarFromJsGrammar (js_grammar : JsValue) : M (Grammar * bool) :=
  js_rules <- ObjectGet js_grammar "rules" ;;
  if negb (IsObject js_rules) then
    NanThrowTypeError "Expected rules to be an object" ;;
    ret (Grammar_of [], false)
  else
    rule_names <- GetOwnPropertyNames js_rules ;;
    rules <- rules_loop js_rules rule_names [] ;;
    match rules with
    | None => ret (Grammar_of [], false)
    | Some rules =>
        let result := Grammar_of rules in
        js_ubiquitous_tokens <- ObjectGet js_grammar "ubiquitous" ;;
        if negb (IsUndefined js_ubiquitous_tokens) then
          if negb (IsArray js_ubiquitous_tokens) then
            NanThrowTypeError "Expected ubiquitous_tokens to be an array" ;;
            ret (Grammar_of [], false)
          else
            elems <- ArrayElements js_ubiquitous_tokens ;;
            ubiquitous_tokens <- ubiquitous_loop elems [] ;;
            ret (set_ubiquitous_tokens result ubiquitous_tokens, true)
        else
          ret (result, true)
    end.

(** The call [tree_sitter::compile(grammar, name)], recorded in the trace. *)
Definition compile (grammar : Grammar) (name : string)
    : M (string * option GrammarError) :=
  fun iso =>
    Returns (tree_sitter_compile grammar name)
            {| scheduled_exception := scheduled_exception iso;
               compiler_calls := compiler_calls iso ++ [(grammar, name)] |}.

(** The error object of a rejected grammar: [NanError(message.c_str())] with
    [isGrammarError] set to [true]. *)
Definition grammar_error (e : GrammarError) : JsException :=
  {| error_type := Error; error_message := c_str (message e); isGrammarError := true |}.

(** The method [Compile], applied to [args[0]]; its result is the value
    handed back to JavaScript. *)
Definition Compile (args0 : JsValue) : M JsValue :=
  let js_grammar := args0 in
  (if negb (IsObject js_grammar)
   then NanThrowTypeError "Expected grammar to be an object" else ret tt) ;;
  js_name <- ObjectGet js_grammar "name" ;;
  (if negb (IsString js_name)
   then NanThrowTypeError "Expected grammar name to be a string" else ret tt) ;;
  name <- StringFromJsString js_name ;;
  grammarResult <- GrammarFromJsGrammar js_grammar ;;
  if negb (snd grammarResult) then
    ret JsUndefined
  else
    result <- compile (fst grammarResult) name ;;
    (match snd result with
     | Some e => ThrowException (grammar_error e)
     | None => ret tt
     end) ;;
    ret (JsString (fst result)).

End Bridge.

(* ================================================================== *)
(** * Notions used in the statements *)

(** The property [key] of an object, as a function. *)
Definition property (object : JsValue) (key : string) : JsValue :=
  match object with
  | JsObject props => own_property props key
  | JsArray elems => array_property elems key
  | _ => JsUndefined
  end.

(** The own enumerable property names of an object, as a function. *)
Definition own_property_names (object : JsValue) : list string :=
  match object with
  | JsObject props => map fst props
  | JsArray elems => map index_name (List.seq 0 (List.length elems))
  | _ => []
  end.

(** The isolate after [e] has been scheduled (if there is an [e]). *)
Definition throw_of (e : option JsException) (iso : Isolate) : Isolate :=
  match e with
  | Some x => {| scheduled_exception := Some x; compiler_calls := compiler_calls iso |}
  | None => iso
  end.

(** The exception scheduled after [e1] and then [e2]: the later one wins. *)
Definition later (e1 e2 : option JsException) : option JsException :=
  match e2 with Some _ => e2 | None => e1 end.

(** The builder never reads the isolate: a run either has no defined result,
    or returns a fixed value and schedules at most a fixed exception.
    [determined m P] says so of [m], with [P] relating the value and the
    exception. *)
Definition determined {A : Type} (m : M A) (P : A -> option JsException -> Prop) : Prop :=
  (forall iso, m iso = UndefinedBehaviour) \/
  (exists a e, (forall iso, m iso = Returns a (throw_of e iso)) /\ P a e).

(** No exception of the rule builder or the assembler carries the
    [isGrammarError] mark. *)
Definition untagged (e : option JsException) : Prop :=
  forall x, e = Some x -> isGrammarError x = false.

(** What holds of a result (a rule, or the list a loop collects) and the
    exception left behind: a null result always comes with an exception. *)
Definition built {A : Type} (r : option A) (e : option JsException) : Prop :=
  (r = None -> e <> None) /\ untagged e.

(** ** Well-formed descriptors

    [describes d r]: [d] is a well-formed descriptor of the Rule Node [r].
    It is an object whose [type] is one of the 13 tags and whose fields for
    that tag have the expected kind: text (free of NUL characters) in [value]
    or [name], a number that is an [int] in the [value] of a precedence,
    well-formed descriptors in [value], [rule] and the array [members].
    Other fields, and the order of the fields, do not matter. *)
Definition has_tag (d : JsValue) (tag : string) : Prop :=
  IsObject d = true /\ property d "type" = JsString tag.

Definition has_text (d : JsValue) (key : string) (s : string) : Prop :=
  property d key = JsString s /\ c_str s = s.

(** The field [value] of a precedence holds the number [n], an [int]. *)
Definition has_level (d : JsValue) (n : Z) : Prop :=
  property d "value" = JsNumber n /\ (- 2 ^ 31 <= n < 2 ^ 31)%Z.

Inductive describes : JsValue -> Rule -> Prop :=
| describes_blank d :
    has_tag d "BLANK" -> describes d Blank
| describes_choice d elems members :
    has_tag d "CHOICE" -> property d "members" = JsArray elems ->
    describes_all elems members -> describes d (Choice members)
| describes_error d r :
    has_tag d "ERROR" -> describes (property d "value") r ->
    describes d (ErrorRecovery (Some r))
| describes_pattern d s :
    has_tag d "PATTERN" -> has_text d "value" s -> describes d (Pattern s)
| describes_repeat d r :
    has_tag d "REPEAT" -> describes (property d "value") r ->
    describes d (Repeat (Some r))
| describes_repeat1 d r :
    has_tag d "REPEAT1" -> describes (property d "value") r ->
    describes d (Repeat1 (Some r))
| describes_seq d elems members :
    has_tag d "SEQ" -> property d "members" = JsArray elems ->
    describes_all elems members -> describes d (Sequence members)
| describes_string d s :
    has_tag d "STRING" -> has_text d "value" s -> describes d (StringLiteral s)
| describes_prec d n r :
    has_tag d "PREC" -> has_level d n ->
    describes (property d "rule") r -> describes d (Precedence n (Some r))
| describes_prec_left d n r :
    has_tag d "PREC_LEFT" -> has_level d n ->
    describes (property d "rule") r -> describes d (PrecedenceLeft n (Some r))
| describes_prec_right d n r :
    has_tag d "PREC_RIGHT" -> has_level d n ->
    describes (property d "rule") r -> describes d (PrecedenceRight n (Some r))
| describes_token d r :
    has_tag d "TOKEN" -> describes (property d "value") r ->
    describes d (Token (Some r))
| describes_symbol d s :
    has_tag d "SYMBOL" -> has_text d "name" s -> describes d (Symbol s)
with describes_all : list JsValue -> list rule_ptr -> Prop :=
| describes_nil : describes_all [] []
| describes_cons e r elems members :
    describes e r -> describes_all elems members ->
    describes_all (e :: elems) (Some r :: members).

(** ** Shapes of results *)

(** The 13 tags the builder knows. *)
Definition known_tags : list string :=
  ["BLANK"; "CHOICE"; "ERROR"; "PATTERN"; "REPEAT"; "REPEAT1"; "SEQ"; "STRING";
   "PREC"; "PREC_LEFT"; "PREC_RIGHT"; "TOKEN"; "SYMBOL"].

(** The three exceptions the builder itself raises. *)
Definition builder_error (x : JsException) : Prop :=
  x = NanTypeError "Expected rule to be an object" \/
  x = NanTypeError "Expected rule type to be a string" \/
  exists type, x = NanError ("Unexpected rule type: " ++ type).

(** [complete r]: no pointer anywhere in the tree [r] is null. *)
Fixpoint complete (r : Rule) : bool :=
  let child c := match c with Some x => complete x | None => false end in
  match r with
  | Blank | StringLiteral _ | Pattern _ | Symbol _ => true
  | Sequence members | Choice members => forallb child members
  | Repeat c | Repeat1 c | Token c | ErrorRecovery c => child c
  | Precedence _ c | PrecedenceLeft _ c | PrecedenceRight _ c => child c
  end.

Definition complete_ptr (rule : rule_ptr) : bool :=
  match rule with Some x => complete x | None => false end.

(** [guarded r]: a null pointer in the tree [r] sits directly under a
    [Repeat], a [Repeat1] or an [ErrorRecovery]; the members of a sequence or
    choice and the child of a token or precedence are never null. *)
Fixpoint guarded (r : Rule) : bool :=
  let present c := match c with Some x => guarded x | None => false end in
  let optional c := match c with Some x => guarded x | None => true end in
  match r with
  | Blank | StringLiteral _ | Pattern _ | Symbol _ => true
  | Sequence members | Choice members => forallb present members
  | Repeat c | Repeat1 c | ErrorRecovery c => optional c
  | Token c => present c
  | Precedence _ c | PrecedenceLeft _ c | PrecedenceRight _ c => present c
  end.

Definition guarded_member (rule : rule_ptr) : bool :=
  match rule with Some x => guarded x | None => false end.

(** What holds of the pointer and the exception a build leaves: the
    exception is one of the builder's three or V8's own; a null pointer
    comes with one of the builder's three; the node is guarded; without an
    exception the tree is complete. *)
Definition shaped (rule : rule_ptr) (e : option JsException) : Prop :=
  (forall x, e = Some x -> builder_error x \/ x = no_primitive_value) /\
  (rule = None -> exists x, e = Some x /\ builder_error x) /\
  (forall r, rule = Some r -> guarded r = true) /\
  (e = None -> complete_ptr rule = true).

(** The same of the list a members loop collects. *)
Definition shaped_members (collected : list rule_ptr)
    (members : option (list rule_ptr)) (e : option JsException) : Prop :=
  (forall x, e = Some x -> builder_error x \/ x = no_primitive_value) /\
  (members = None -> exists x, e = Some x /\ builder_error x) /\
  (forall ms, members = Some ms -> forallb guarded_member ms = true) /\
  (e = None -> exists ms, members = Some ms /\
                (forallb complete_ptr collected = true -> forallb complete_ptr ms = true)).

(** The exceptions of the assembler: those of the builder and its own two. *)
Definition assembler_error (x : JsException) : Prop :=
  builder_error x \/
  x = NanTypeError "Expected rules to be an object" \/
  x = NanTypeError "Expected ubiquitous_tokens to be an array".

Definition complete_rules (rules : list (string * rule_ptr)) : bool :=
  forallb (fun entry => complete_ptr (snd entry)) rules.

(** [complete_grammar g]: no rule and no ubiquitous token of [g] holds a
    null pointer anywhere. *)
Definition complete_grammar (grammar : Grammar) : bool :=
  complete_rules (rules grammar) && forallb complete_ptr (ubiquitous_tokens grammar).

(** What holds of the assembler's result and the exception it leaves. *)
Definition assembled (result : Grammar * bool) (e : option JsException) : Prop :=
  (forall x, e = Some x -> assembler_error x \/ x = no_primitive_value) /\
  (snd result = false ->
   fst result = Grammar_of [] /\ exists x, e = Some x /\ assembler_error x) /\
  (e = None -> snd result = true /\ complete_grammar (fst result) = true).

(** The characters of a string. *)
Fixpoint chars (s : string) : list ascii :=
  match s with
  | EmptyString => []
  | String c rest => c :: chars rest
  end.

(** ** Sample inputs *)

(** Stand-ins for the library functions: conversions that print every large
    number alike, find no numeral in a string and saturate, a compiler that
    accepts every grammar and one that rejects every grammar. *)
Definition sample_V8 : Conversions :=
  {| NumberToString := fun _ => "1e+21";
     StringToInteger := fun _ => 0%Z;
     NumberToInt64 := fun _ => (2 ^ 63 - 1)%Z;
     Int64ToLevel := fun _ => (-1)%Z |}.

Definition accepting_compiler : Grammar -> string -> string * option GrammarError :=
  fun _ _ => ("/* parser */", None).

Definition rejecting_compiler : Grammar -> string -> string * option GrammarError :=
  fun _ _ => ("", Some {| message := "Undefined rule 'expr'" |}).

Definition js_blank : JsValue := JsObject [("type", JsString "BLANK")].

Definition js_string (value : string) : JsValue :=
  JsObject [("type", JsString "STRING"); ("value", JsString value)].

Definition js_symbol (name : string) : JsValue :=
  JsObject [("type", JsString "SYMBOL"); ("name", JsString name)].

(** The descriptors of the spec's examples 2, 3 and 4. *)
Definition js_seq_example : JsValue :=
  JsObject [("type", JsString "SEQ"); ("members", JsArray [js_string "a"; js_blank])].

Definition js_prec_left_example : JsValue :=
  JsObject [("type", JsString "PREC_LEFT"); ("value", JsNumber 2);
            ("rule", js_symbol "expr")].

Definition js_unknown : JsValue := JsObject [("type", JsString "FOO")].

Definition js_seq_without_members : JsValue := JsObject [("type", JsString "SEQ")].

(** A sequence whose second member is invalid and whose third member lacks
    its [members]. *)
Definition js_seq_with_invalid_member : JsValue :=
  JsObject [("type", JsString "SEQ");
            ("members", JsArray [js_string "a"; js_unknown; js_seq_without_members])].

(** Grammars: rules declared in the order [b], [a]; the same with a
    [ubiquitous] field that is no array; a rule that refers to a symbol
    nobody declares. *)
Definition js_rules_b_a : JsValue :=
  JsObject [("b", js_blank); ("a", js_string "x")].

Definition js_grammar_b_a : JsValue :=
  JsObject [("name", JsString "g"); ("rules", js_rules_b_a)].

Definition js_grammar_bad_ubiquitous : JsValue :=
  JsObject [("name", JsString "g"); ("rules", js_rules_b_a); ("ubiquitous", JsNumber 5)].

Definition js_grammar_undeclared_symbol : JsValue :=
  JsObject [("name", JsString "g"); ("rules", JsObject [("a", js_symbol "expr")])].

(** More samples: a repeat of an invalid rule; a [STRING] with its fields in
    another order and a field nobody reads; a grammar whose second rule is
    invalid, whose third lacks its [members] and whose [ubiquitous] is no
    array; a grammar with two ubiquitous tokens, the second invalid; a text
    with a NUL character in it. *)
Definition js_repeat_of_unknown : JsValue :=
  JsObject [("type", JsString "REPEAT"); ("value", js_unknown)].

Definition js_string_reordered : JsValue :=
  JsObject [("comment", JsNumber 1); ("value", JsString "a"); ("type", JsString "STRING")].

Definition js_rules_with_invalid : JsValue :=
  JsObject [("a", js_blank); ("b", js_unknown); ("c", js_seq_without_members)].

Definition js_grammar_with_invalid_rule : JsValue :=
  JsObject [("name", JsString "g"); ("rules", js_rules_with_invalid);
            ("ubiquitous", JsNumber 5)].

Definition js_grammar_with_tokens : JsValue :=
  JsObject [("name", JsString "g"); ("rules", js_rules_b_a);
            ("ubiquitous", JsArray [js_string " "; js_unknown])].

(** An object whose [toString] is data, and a [STRING] rule with it as
    [value]; a sequence whose first member wraps a failed child, alone and
    followed by a second invalid member. *)
Definition js_object_with_toString : JsValue := JsObject [("toString", JsString "x")].

Definition js_string_of_object : JsValue :=
  JsObject [("type", JsString "STRING"); ("value", js_object_with_toString)].

Definition js_prec_of_object : JsValue :=
  JsObject [("type", JsString "PREC"); ("value", js_object_with_toString);
            ("rule", js_blank)].

Definition js_unknown_bar : JsValue := JsObject [("type", JsString "BAR")].

Definition js_seq_with_wrapped_failure : JsValue :=
  JsObject [("type", JsString "SEQ"); ("members", JsArray [js_repeat_of_unknown; js_blank])].

Definition js_seq_with_two_invalid : JsValue :=
  JsObject [("type", JsString "SEQ");
            ("members", JsArray [js_repeat_of_unknown; js_unknown_bar; js_blank])].

Definition text_with_nul : string :=
  String "a" (String Ascii.zero (String "b" EmptyString)).

(* ================================================================== *)
(** * Auxiliary facts: values, the monad, the recursion *)

Lemma list_max_In {A : Type} (f : A -> nat) (l : list A) (x : A) :
  In x l -> f x <= list_max (map f l).
Proof.
  induction l as [|y l IH]; simpl; intros H; [contradiction|].
  destruct H as [->|H]; [lia|]. specialize (IH H). lia.
Qed.

Lemma own_property_depth (props : list (string * JsValue)) (key : string) :
  depth (own_property props key) <= list_max (map (fun p => depth (snd p)) props).
Proof.
  induction props as [|[k v] rest IH]; simpl; [lia|].
  destruct (String.eqb k key); simpl; lia.
Qed.

Lemma array_element_depth (elems : list JsValue) (i : nat) (key : string) :
  depth (array_element elems i key) <= list_max (map depth elems).
Proof.
  revert i; induction elems as [|e rest IH]; intros i; simpl; [lia|].
  destruct (String.eqb (index_name i) key); [lia|]. specialize (IH (S i)). lia.
Qed.

Lemma ObjectGet_object (object : JsValue) (key : string) :
  IsObject object = true -> ObjectGet object key = ret (property object key).
Proof. destruct object; simpl; intros H; try discriminate; reflexivity. Qed.

Lemma ObjectGet_not_object (object : JsValue) (key : string) :
  IsObject object = false -> ObjectGet object key = undefined_behaviour.
Proof. destruct object; simpl; intros H; try discriminate; reflexivity. Qed.

Lemma property_depth (object : JsValue) (key : string) :
  IsObject object = true -> depth (property object key) < depth object.
Proof.
  destruct object; simpl; intros H; try discriminate.
  - unfold array_property. destruct (String.eqb key "length"); simpl; [lia|].
    pose proof (array_element_depth elems 0 key). lia.
  - pose proof (own_property_depth props key). lia.
Qed.

Lemma ArrayElements_depth (array : JsValue) (elems : list JsValue) (iso iso' : Isolate) :
  ArrayElements array iso = Returns elems iso' ->
  array = JsArray elems /\ iso' = iso /\ forall e, In e elems -> depth e < depth array.
Proof.
  destruct array; simpl; try discriminate.
  intros H; injection H as <- <-. repeat split.
  intros e He. pose proof (list_max_In depth _ _ He). simpl. lia.
Qed.

Lemma bind_ret {A B : Type} (a : A) (k : A -> M B) (iso : Isolate) :
  bind (ret a) k iso = k a iso.
Proof. reflexivity. Qed.

(** ** Computations whose effect does not depend on the isolate *)

Lemma throw_of_later (e1 e2 : option JsException) (iso : Isolate) :
  throw_of e2 (throw_of e1 iso) = throw_of (later e1 e2) iso.
Proof. destruct e2 as [x2|], e1 as [x1|]; reflexivity. Qed.

Lemma determined_ret {A : Type} (a : A) (P : A -> option JsException -> Prop) :
  P a None -> determined (ret a) P.
Proof. intros H. right. exists a, None. split; [reflexivity | exact H]. Qed.

Lemma determined_bind {A B : Type} (m : M A) (k : A -> M B)
    (P : A -> option JsException -> Prop) (Q : B -> option JsException -> Prop) :
  determined m P ->
  (forall a e1, P a e1 -> determined (k a) (fun b e2 => Q b (later e1 e2))) ->
  determined (bind m k) Q.
Proof.
  intros [Hub | (a & e1 & Hm & HP)] Hk.
  - left. intros iso. unfold bind. rewrite Hub. reflexivity.
  - destruct (Hk a e1 HP) as [Hub | (b & e2 & Hka & HQ)].
    + left. intros iso. unfold bind. rewrite Hm. apply Hub.
    + right. exists b, (later e1 e2). split; [|exact HQ].
      intros iso. unfold bind. rewrite Hm, Hka. f_equal. apply throw_of_later.
Qed.

Lemma determined_ext {A : Type} (m m' : M A) (P : A -> option JsException -> Prop) :
  (forall iso, m iso = m' iso) -> determined m' P -> determined m P.
Proof.
  intros Heq [Hub | (a & e & Hm & HP)].
  - left. intros iso. rewrite Heq. apply Hub.
  - right. exists a, e. split; [|exact HP]. intros iso. rewrite Heq. apply Hm.
Qed.

Lemma determined_weaken {A : Type} (m : M A) (P Q : A -> option JsException -> Prop) :
  (forall a e, P a e -> Q a e) -> determined m P -> determined m Q.
Proof.
  intros HPQ [Hub | (a & e & Hm & HP)]; [left; exact Hub|].
  right. exists a, e. split; [exact Hm | apply HPQ; exact HP].
Qed.

Lemma untagged_later (e1 e2 : option JsException) :
  untagged e1 -> untagged e2 -> untagged (later e1 e2).
Proof. intros H1 H2. destruct e2; simpl; assumption. Qed.

Lemma untagged_None : untagged None.
Proof. intros x H. discriminate. Qed.

Lemma later_not_None (e1 e2 : option JsException) :
  e2 <> None -> later e1 e2 <> None.
Proof. destruct e2; simpl; congruence. Qed.

Create HintDb bridge.
#[local] Hint Resolve untagged_later untagged_None later_not_None : bridge.

Lemma determined_bind_ret {A B : Type} (a : A) (k : A -> M B)
    (Q : B -> option JsException -> Prop) :
  determined (k a) Q -> determined (bind (ret a) k) Q.
Proof. apply determined_ext. intros iso. apply bind_ret. Qed.

Lemma determined_bind_ArrayElements {B : Type} (array : JsValue)
    (k : list JsValue -> M B) (Q : B -> option JsException -> Prop) :
  (forall elems, array = JsArray elems -> determined (k elems) Q) ->
  determined (bind (ArrayElements array) k) Q.
Proof.
  intros H. destruct array; try (left; reflexivity).
  simpl. apply determined_bind_ret. apply H. reflexivity.
Qed.

Lemma determined_bind_ObjectGet {B : Type} (object : JsValue) (key : string)
    (k : JsValue -> M B) (Q : B -> option JsException -> Prop) :
  (IsObject object = true -> determined (k (property object key)) Q) ->
  determined (bind (ObjectGet object key) k) Q.
Proof.
  intros H. destruct (IsObject object) eqn:Hobj.
  - rewrite ObjectGet_object by exact Hobj. apply determined_bind_ret. apply H. reflexivity.
  - rewrite ObjectGet_not_object by exact Hobj. left. reflexivity.
Qed.

Lemma GetOwnPropertyNames_object (object : JsValue) :
  IsObject object = true ->
  GetOwnPropertyNames object = ret (map JsString (own_property_names object)).
Proof.
  destruct object; simpl; intros H; try discriminate; rewrite map_map; reflexivity.
Qed.

Lemma later_None_inv (e1 e2 : option JsException) :
  later e1 e2 = None -> e1 = None /\ e2 = None.
Proof. destruct e2; simpl; intros H; [discriminate | auto]. Qed.

(** ** The shape of what a build leaves *)

Lemma known_exception_later (e1 e2 : option JsException) (P : JsException -> Prop) :
  (forall x, e1 = Some x -> P x) -> (forall x, e2 = Some x -> P x) ->
  forall x, later e1 e2 = Some x -> P x.
Proof. intros H1 H2 x. destruct e2; simpl; auto. Qed.

Lemma builder_error_unmarked (x : JsException) :
  builder_error x \/ x = no_primitive_value -> isGrammarError x = false.
Proof.
  intros [[-> | [-> | (type & ->)]] | ->]; reflexivity.
Qed.

Lemma shaped_built (rule : rule_ptr) (e : option JsException) :
  shaped rule e -> built rule e.
Proof.
  intros (Hkind & Hnull & _ & _). split.
  - intros Hrule. destruct (Hnull Hrule) as (x & -> & _). discriminate.
  - intros x Hx. apply builder_error_unmarked. apply Hkind. exact Hx.
Qed.

Lemma shaped_throw_null (x : JsException) :
  builder_error x ->
  determined (bind (ThrowException x) (fun _ => ret null)) shaped.
Proof.
  intros Hx. right. exists None, (Some x). split; [reflexivity|].
  split; [|split; [|split]]; try discriminate.
  - intros y Hy. injection Hy as <-. left. exact Hx.
  - intros _. exists x. auto.
Qed.

Lemma shaped_leaf (r : Rule) :
  guarded r = true -> complete r = true -> shaped (Some r) None.
Proof.
  intros Hg Hc. split; [|split; [|split]]; try discriminate.
  - intros r' Hr. injection Hr as <-. exact Hg.
  - intros _. exact Hc.
Qed.

(** A node that keeps whatever pointer its child's build returned. *)
Lemma shaped_wrapper (wrap : rule_ptr -> Rule) (value : rule_ptr) (e : option JsException) :
  (forall c, guarded (wrap c) = match c with Some x => guarded x | None => true end) ->
  (forall c, complete (wrap c) = complete_ptr c) ->
  shaped value e -> shaped (Some (wrap value)) e.
Proof.
  intros Hg Hc (Ht & _ & Hgv & Hcv). split; [exact Ht|split; [discriminate|split]].
  - intros r Hr. injection Hr as <-. rewrite Hg. destruct value; auto.
  - intros He. simpl. rewrite Hc. apply Hcv. exact He.
Qed.

(** A node that is only made of a child that is there, after a conversion
    that may have left V8's exception. *)
Lemma shaped_strict (wrap : rule_ptr -> Rule) (x : Rule) (e1 e2 : option JsException) :
  (forall c, guarded (wrap c) = guarded_member c) ->
  (forall c, complete (wrap c) = complete_ptr c) ->
  shaped (Some x) e1 ->
  (forall y, e2 = Some y -> y = no_primitive_value) ->
  shaped (Some (wrap (Some x))) (later e1 e2).
Proof.
  intros Hg Hc (Ht & _ & Hgv & Hcv) He2. split; [|split; [discriminate|split]].
  - apply known_exception_later; [exact Ht|]. intros y Hy. right. apply He2. exact Hy.
  - intros r Hr. injection Hr as <-. rewrite Hg. simpl. apply Hgv. reflexivity.
  - intros He. apply later_None_inv in He. destruct He as [He _].
    simpl. rewrite Hc. apply Hcv. exact He.
Qed.

Lemma shaped_composite (wrap : list rule_ptr -> Rule)
    (members : option (list rule_ptr)) (e : option JsException) :
  (forall ms, guarded (wrap ms) = forallb guarded_member ms) ->
  (forall ms, complete (wrap ms) = forallb complete_ptr ms) ->
  shaped_members [] members e ->
  shaped (match members with Some ms => Some (wrap ms) | None => None end) e.
Proof.
  intros Hg Hc (Ht & Hnull & Hgm & Hcm). split; [exact Ht|split; [|split]].
  - intros Hr. destruct members; [discriminate|]. apply Hnull. reflexivity.
  - intros r Hr. destruct members as [ms|]; [|discriminate].
    injection Hr as <-. rewrite Hg. apply Hgm. reflexivity.
  - intros He. destruct (Hcm He) as (ms & -> & Hall). simpl. rewrite Hc.
    apply Hall. reflexivity.
Qed.

Lemma members_loop_shaped (f : JsValue -> M rule_ptr) (elems : list JsValue) :
  (forall e, In e elems -> determined (f e) shaped) ->
  forall collected,
    forallb guarded_member collected = true ->
    determined (members_loop f elems collected) (shaped_members collected).
Proof.
  induction elems as [|e rest IH]; intros Hf collected Hcollected; simpl.
  - apply determined_ret. split; [discriminate|split; [discriminate|split]].
    + intros ms Hms. injection Hms as <-. exact Hcollected.
    + intros _. exists collected. auto.
  - eapply determined_bind; [apply Hf; left; reflexivity|].
    intros [x|] e1 (Ht & Hnull & Hg & Hc); cbn [get].
    + eapply determined_weaken;
        [|apply IH; [intros; apply Hf; right; assumption|]].
      * intros res e2 (Ht2 & Hnull2 & Hg2 & Hc2). split; [|split; [|split]].
        -- apply known_exception_later; assumption.
        -- intros Hres. destruct (Hnull2 Hres) as (y & -> & Hy). exists y. auto.
        -- exact Hg2.
        -- intros He. apply later_None_inv in He. destruct He as [He1 He2].
           destruct (Hc2 He2) as (ms & Hms & Hall). exists ms. split; [exact Hms|].
           intros Hcoll. apply Hall. rewrite forallb_app, Hcoll. cbn [forallb].
           rewrite (Hc He1). reflexivity.
      * rewrite forallb_app, Hcollected. cbn [forallb guarded_member].
        rewrite (Hg x eq_refl). reflexivity.
    + apply determined_ret. cbn [later]. split; [exact Ht|split; [|split]].
      * intros _. apply Hnull. reflexivity.
      * discriminate.
      * intros He. specialize (Hc He). discriminate.
Qed.

Lemma Get_name (object : JsValue) (name : string) :
  Get object (JsString name) = ObjectGet object name.
Proof. reflexivity. Qed.

Lemma determined_bind_Get {B : Type} (object key : JsValue)
    (k : JsValue -> M B) (Q : B -> option JsException -> Prop) :
  (forall name, key = JsString name -> IsObject object = true ->
                determined (k (property object name)) Q) ->
  determined (bind (Get object key) k) Q.
Proof.
  intros H. destruct key; try (left; reflexivity).
  rewrite Get_name. apply determined_bind_ObjectGet. intros Hobj.
  apply (H s eq_refl Hobj).
Qed.

(** ** The conversions *)

Section Conversion.

Variable V8 : Conversions.

Lemma StringFromJsString_string (s : string) :
  StringFromJsString V8 (JsString s) = ret (c_str s).
Proof. reflexivity. Qed.

Lemma StringFromJsString_Returns (js_string : JsValue) (s : string) (iso iso' : Isolate) :
  StringFromJsString V8 js_string iso = Returns s iso' ->
  iso' = iso /\ exists text, ToString V8 js_string = Some text /\ s = c_str text.
Proof.
  unfold StringFromJsString. destruct (ToString V8 js_string) as [text|];
    [|discriminate].
  intros H. injection H as <- <-. split; [reflexivity|]. exists text. auto.
Qed.

Lemma determined_bind_StringFromJsString {B : Type} (js_string : JsValue)
    (k : string -> M B) (Q : B -> option JsException -> Prop) :
  (forall text, ToString V8 js_string = Some text -> determined (k (c_str text)) Q) ->
  determined (bind (StringFromJsString V8 js_string) k) Q.
Proof.
  intros H. unfold StringFromJsString.
  destruct (ToString V8 js_string) as [text|].
  - apply determined_bind_ret. apply H. reflexivity.
  - left. reflexivity.
Qed.

Lemma IntegerValue_determined (value : JsValue) :
  determined (IntegerValue V8 value)
             (fun _ e => forall x, e = Some x -> x = no_primitive_value).
Proof.
  assert (Hret : forall level,
            determined (ret level : M Z)
                       (fun _ e => forall x, e = Some x -> x = no_primitive_value)).
  { intros level. apply determined_ret. discriminate. }
  assert (Hthrow : determined (bind (ThrowException no_primitive_value)
                                    (fun _ => ret 0%Z))
                     (fun _ e => forall x, e = Some x -> x = no_primitive_value)).
  { right. exists 0%Z, (Some no_primitive_value). split; [reflexivity|].
    intros x Hx. injection Hx as <-. reflexivity. }
  destruct value; simpl; try apply Hret.
  - destruct (match _ with Some texts => _ | None => None end); [apply Hret | apply Hthrow].
  - destruct (has_own_property props "toString"); [apply Hthrow | apply Hret].
Qed.

Lemma determined_bind_IntegerValue {B : Type} (value : JsValue)
    (k : Z -> M B) (Q : B -> option JsException -> Prop) :
  (forall level e1,
     (forall x, e1 = Some x -> x = no_primitive_value) ->
     determined (k level) (fun b e2 => Q b (later e1 e2))) ->
  determined (bind (IntegerValue V8 value) k) Q.
Proof.
  intros H. eapply determined_bind; [apply IntegerValue_determined|].
  intros level e1 He1. apply H. exact He1.
Qed.

End Conversion.

Section Recursion.

Variable V8 : Conversions.

Local Abbreviation body := (RuleFromJsRule_body V8).
Local Abbreviation fuelled := (RuleFromJsRule_fuel V8).
Local Abbreviation build := (RuleFromJsRule V8).

Lemma members_loop_ext (f g : JsValue -> M rule_ptr) (elems : list JsValue) :
  (forall e iso, In e elems -> f e iso = g e iso) ->
  forall members iso, members_loop f elems members iso = members_loop g elems members iso.
Proof.
  induction elems as [|e rest IH]; intros Hfg members iso; simpl; [reflexivity|].
  unfold bind. rewrite (Hfg e iso (or_introl eq_refl)).
  destruct (g e iso) as [member iso'| |]; try reflexivity.
  destruct (get member); [|reflexivity].
  apply IH. intros e' iso'' He'. apply Hfg. right; exact He'.
Qed.

(** Splits the goal along the dispatch on the type tag. *)
Ltac dispatch :=
  repeat match goal with
  | |- context [if String.eqb ?a ?b then _ else _] => destruct (String.eqb a b)
  end.

(** The body only calls its first argument on values nested in [js_rule]. *)
Lemma RuleFromJsRule_body_ext (f g : JsValue -> M rule_ptr) (js_rule : JsValue) :
  (forall c iso, depth c < depth js_rule -> f c iso = g c iso) ->
  forall iso, body f js_rule iso = body g js_rule iso.
Proof.
  intros Hfg iso. unfold RuleFromJsRule_body.
  destruct (IsObject js_rule) eqn:Hobj; simpl; [|reflexivity].
  assert (Hp : forall key iso, f (property js_rule key) iso = g (property js_rule key) iso).
  { intros key iso0. apply Hfg. apply property_depth. exact Hobj. }
  assert (Hm : forall members iso,
             bind (ArrayElements (property js_rule "members"))
                  (fun elems => members_loop f elems members) iso =
             bind (ArrayElements (property js_rule "members"))
                  (fun elems => members_loop g elems members) iso).
  { intros members iso0. unfold bind.
    destruct (ArrayElements (property js_rule "members") iso0) as [elems iso1| |] eqn:E;
      try reflexivity.
    apply ArrayElements_depth in E. destruct E as (_ & _ & Hd).
    apply members_loop_ext. intros e iso2 He. apply Hfg.
    pose proof (property_depth js_rule "members" Hobj). specialize (Hd e He). lia. }
  rewrite !ObjectGet_object by exact Hobj. rewrite !bind_ret. cbv beta.
  destruct (property js_rule "type") as [| | | |type| |]; cbn [IsString negb];
    try reflexivity.
  rewrite StringFromJsString_string, !bind_ret. cbv beta.
  dispatch; rewrite ?ObjectGet_object by exact Hobj; rewrite ?bind_ret; cbv beta;
    try reflexivity;
    try (unfold bind at 1; rewrite Hp; reflexivity).
  - specialize (Hm [] iso). unfold bind in *.
    destruct (ArrayElements (property js_rule "members") iso); try reflexivity.
    rewrite Hm. reflexivity.
  - specialize (Hm [] iso). unfold bind in *.
    destruct (ArrayElements (property js_rule "members") iso); try reflexivity.
    rewrite Hm. reflexivity.
Qed.

Lemma RuleFromJsRule_fuel_stable (n : nat) :
  forall m js_rule iso,
    depth js_rule < n -> depth js_rule < m ->
    fuelled n js_rule iso = fuelled m js_rule iso.
Proof.
  induction n as [|n IH]; intros m js_rule iso Hn Hm; [lia|].
  destruct m as [|m]; [lia|]. simpl.
  apply RuleFromJsRule_body_ext. intros c iso' Hc. apply IH; lia.
Qed.

(** More fuel than the nesting depth never changes the result. *)
Lemma RuleFromJsRule_fuel_enough (n : nat) (js_rule : JsValue) (iso : Isolate) :
  depth js_rule < n -> fuelled n js_rule iso = build js_rule iso.
Proof.
  intros H. unfold RuleFromJsRule. apply RuleFromJsRule_fuel_stable; lia.
Qed.

(** [RuleFromJsRule] satisfies the recursive equation of the C++ function. *)
Lemma RuleFromJsRule_unfold (js_rule : JsValue) (iso : Isolate) :
  build js_rule iso = body build js_rule iso.
Proof.
  unfold RuleFromJsRule at 1. simpl.
  apply RuleFromJsRule_body_ext. intros c iso' Hc.
  apply RuleFromJsRule_fuel_enough. exact Hc.
Qed.

Ltac shape_of_node :=
  cbn [later];
  first
    [ apply shaped_leaf; reflexivity
    | apply (shaped_wrapper ErrorRecovery); [intros []; reflexivity | reflexivity | assumption]
    | apply (shaped_wrapper Repeat); [intros []; reflexivity | reflexivity | assumption]
    | apply (shaped_wrapper Repeat1); [intros []; reflexivity | reflexivity | assumption]
    | apply (shaped_strict Token _ _ None); [reflexivity | reflexivity | assumption | discriminate]
    | apply (shaped_strict (Precedence _)); [reflexivity | reflexivity | assumption | assumption]
    | apply (shaped_strict (PrecedenceLeft _)); [reflexivity | reflexivity | assumption | assumption]
    | apply (shaped_strict (PrecedenceRight _)); [reflexivity | reflexivity | assumption | assumption]
    | assumption ].

(** A run of the builder is determined by the descriptor alone: it has no
    defined result, or returns a fixed pointer and leaves a fixed exception
    (or none), the two being [shaped]. *)
Lemma RuleFromJsRule_shaped_below (n : nat) :
  forall js_rule, depth js_rule < n -> determined (build js_rule) shaped.
Proof.
  induction n as [|n IH]; intros js_rule Hn; [lia|].
  apply (determined_ext _ (body build js_rule)); [apply RuleFromJsRule_unfold|].
  unfold RuleFromJsRule_body.
  destruct (IsObject js_rule) eqn:Hobj; cbn [negb];
    [|apply shaped_throw_null; left; reflexivity].
  assert (IHc : forall key, determined (build (property js_rule key)) shaped).
  { intros key. apply IH. pose proof (property_depth js_rule key Hobj). lia. }
  assert (IHm : forall elems,
             property js_rule "members" = JsArray elems ->
             determined (members_loop build elems []) (shaped_members [])).
  { intros elems Hprop. apply members_loop_shaped; [|reflexivity].
    intros e He. apply IH.
    pose proof (property_depth js_rule "members" Hobj) as Hd. rewrite Hprop in Hd.
    pose proof (list_max_In depth _ _ He). simpl in Hd. lia. }
  rewrite !ObjectGet_object by exact Hobj. apply determined_bind_ret.
  destruct (IsString (property js_rule "type")); cbn [negb];
    [|apply shaped_throw_null; right; left; reflexivity].
  apply determined_bind_StringFromJsString. intros type _.
  dispatch; try apply determined_bind_ret;
    try (apply shaped_throw_null; right; right; eexists; reflexivity);
    try (apply determined_ret; shape_of_node);
    try (apply determined_bind_StringFromJsString; intros text _;
         apply determined_ret; shape_of_node);
    try (apply determined_bind_ArrayElements; intros elems Helems;
         eapply determined_bind; [apply (IHm _ Helems)|];
         intros members e1 Hmembers;
         first [ pose proof (shaped_composite Choice members e1
                               (fun _ => eq_refl) (fun _ => eq_refl) Hmembers) as Hnode;
                 destruct members; apply determined_ret; exact Hnode
               | pose proof (shaped_composite Sequence members e1
                               (fun _ => eq_refl) (fun _ => eq_refl) Hmembers) as Hnode;
                 destruct members; apply determined_ret; exact Hnode ]);
    try (eapply determined_bind; [apply IHc|];
         intros [r|] e1 Hchild; cbn [get]; try apply determined_bind_ret;
         try (apply determined_bind_IntegerValue; intros level e2 Hlevel);
         apply determined_ret; shape_of_node).
Qed.

Lemma RuleFromJsRule_shaped (js_rule : JsValue) : determined (build js_rule) shaped.
Proof. apply (RuleFromJsRule_shaped_below (S (depth js_rule))). lia. Qed.

(** In particular the exception is unmarked, and a null pointer always comes
    with an exception. *)
Lemma RuleFromJsRule_determined (js_rule : JsValue) :
  determined (build js_rule) built.
Proof.
  eapply determined_weaken; [|apply RuleFromJsRule_shaped].
  intros rule e. apply shaped_built.
Qed.

End Recursion.

Arguments RuleFromJsRule : simpl never.
Arguments number_to_int64 : simpl never.
Arguments to_level : simpl never.

(* ================================================================== *)
(** * The rule builder *)

Section RuleBuilder.

Variable V8 : Conversions.

Local Abbreviation body := (RuleFromJsRule_body V8).
Local Abbreviation fuelled := (RuleFromJsRule_fuel V8).
Local Abbreviation build := (RuleFromJsRule V8).

(** Opens the body of the builder at an object whose [type] is known. *)
Ltac enter Htag :=
  let Hobj := fresh "Hobj" in
  let Htype := fresh "Htype" in
  destruct Htag as [Hobj Htype];
  rewrite RuleFromJsRule_unfold; unfold RuleFromJsRule_body;
  rewrite !ObjectGet_object by exact Hobj;
  rewrite Hobj, Htype; cbn.

Lemma RuleFromJsRule_Returns_inv (js_rule : JsValue) (iso iso' : Isolate) (rule : rule_ptr) :
  build js_rule iso = Returns rule iso' ->
  exists e, iso' = throw_of e iso /\ built rule e /\
            forall iso2, build js_rule iso2 = Returns rule (throw_of e iso2).
Proof.
  intros H. destruct (RuleFromJsRule_determined V8 js_rule)
    as [Hub | (a & e & Hrun & Hbuilt)].
  - rewrite Hub in H. discriminate.
  - rewrite Hrun in H. injection H as <- <-. exists e. auto.
Qed.

Lemma members_loop_describes (elems : list JsValue) (nodes : list rule_ptr) :
  describes_all elems nodes ->
  (forall e r, In e elems -> describes e r ->
               forall iso, build e iso = Returns (Some r) iso) ->
  forall members iso,
    members_loop build elems members iso = Returns (Some (members ++ nodes)) iso.
Proof.
  induction 1 as [|e r elems nodes He Hall IH]; intros Hbuild members iso; simpl.
  - rewrite app_nil_r. reflexivity.
  - unfold bind. rewrite (Hbuild e r (or_introl eq_refl) He). cbn [get].
    rewrite IH by (intros; apply Hbuild; [right|]; assumption).
    rewrite <- app_assoc. reflexivity.
Qed.

(** A level that is an [int] reaches the constructor as it is. *)
Lemma level_kept (n : Z) :
  (- 2 ^ 31 <= n < 2 ^ 31)%Z -> to_level V8 (number_to_int64 V8 n) = n.
Proof.
  intros Hn. unfold number_to_int64, to_level.
  assert (H64 : ((- 2 ^ 63 <=? n) && (n <? 2 ^ 63))%Z = true).
  { apply andb_true_iff. split; [apply Z.leb_le | apply Z.ltb_lt]; lia. }
  assert (H32 : ((- 2 ^ 31 <=? n) && (n <? 2 ^ 31))%Z = true).
  { apply andb_true_iff. split; [apply Z.leb_le | apply Z.ltb_lt]; lia. }
  rewrite H64, H32. reflexivity.
Qed.

Lemma describes_below (n : nat) :
  forall d r, depth d < n -> describes d r ->
              forall iso, build d iso = Returns (Some r) iso.
Proof.
  induction n as [|n IH]; intros d r Hn Hd iso; [lia|].
  assert (IHc : forall key r', IsObject d = true -> describes (property d key) r' ->
                  forall iso, build (property d key) iso = Returns (Some r') iso).
  { intros key r' Hobj. apply IH. pose proof (property_depth d key Hobj). lia. }
  assert (IHm : forall elems nodes, IsObject d = true ->
                  property d "members" = JsArray elems -> describes_all elems nodes ->
                  forall iso, members_loop build elems [] iso = Returns (Some nodes) iso).
  { intros elems nodes Hobj Hprop Hall iso0.
    apply (members_loop_describes elems nodes Hall). intros e r' He. apply IH.
    pose proof (property_depth d "members" Hobj) as Hlt. rewrite Hprop in Hlt.
    pose proof (list_max_In depth _ _ He). simpl in Hlt. lia. }
  inversion Hd as
    [ d0 Htag | d0 elems nodes Htag Hmem Hall | d0 r0 Htag Hc | d0 s Htag [Hv Hs]
    | d0 r0 Htag Hc | d0 r0 Htag Hc | d0 elems nodes Htag Hmem Hall | d0 s Htag [Hv Hs]
    | d0 lv r0 Htag [Hlv Hint] Hc | d0 lv r0 Htag [Hlv Hint] Hc
    | d0 lv r0 Htag [Hlv Hint] Hc
    | d0 r0 Htag Hc | d0 s Htag [Hv Hs] ]; subst;
    pose proof (proj1 Htag) as Hobj'; enter Htag;
    try reflexivity;
    try (unfold bind; rewrite Hmem; cbn; rewrite (IHm _ _ Hobj' Hmem Hall); reflexivity);
    try (unfold bind; rewrite (IHc _ _ Hobj' Hc); cbn; rewrite ?Hlv; cbn;
         rewrite ?level_kept by exact Hint; reflexivity);
    try (rewrite Hv; cbn; rewrite Hs; reflexivity).
Qed.

(** C5.  Every well-formed descriptor of one of the 13 tags builds, raising
    nothing, into the Rule Node it describes: a [STRING] into the
    [StringLiteral] of its text, a [SEQ] or [CHOICE] into the [Sequence] or
    [Choice] of its members' nodes in the same order, a precedence into the
    node carrying its level and its child's node, [BLANK] into [Blank]
    whatever its other fields are. *)
Theorem well_formed_descriptor_builds (d : JsValue) (r : Rule) :
  describes d r -> forall iso, build d iso = Returns (Some r) iso.
Proof.
  intros Hd. apply (describes_below (S (depth d))); [lia | exact Hd].
Qed.

(** ** Failing members and children *)

Lemma members_loop_abort (pre post : list JsValue) (m : JsValue) (x : JsException) :
  (forall p, In p pre -> exists iso1 r iso2, build p iso1 = Returns (Some r) iso2) ->
  (forall iso, build m iso = Returns None (throw_of (Some x) iso)) ->
  forall members iso,
    members_loop build (pre ++ m :: post) members iso =
    Returns None (throw_of (Some x) iso).
Proof.
  intros Hpre Hm. induction pre as [|p pre IH]; intros members iso; simpl; unfold bind.
  - rewrite Hm. reflexivity.
  - destruct (Hpre p (or_introl eq_refl)) as (iso1 & r & iso2 & Hp).
    apply RuleFromJsRule_Returns_inv in Hp. destruct Hp as (e & _ & _ & Hp).
    rewrite Hp. cbn [get].
    rewrite IH by (intros; apply Hpre; right; assumption).
    rewrite throw_of_later. reflexivity.
Qed.

(** X14.  A [SEQ] or [CHOICE] builds its members in order and gives up at
    the first one whose build returns the null pointer: the whole rule then
    returns the null pointer, the exception left is the one that member's
    build leaves, and the members after it are not built (whatever they are,
    they have no part in the result). *)
Theorem composite_eager_abort (js_rule : JsValue) (tag : string)
    (pre post : list JsValue) (m : JsValue) (iso_m iso_m' : Isolate) :
  has_tag js_rule tag -> tag = "SEQ" \/ tag = "CHOICE" ->
  property js_rule "members" = JsArray (pre ++ m :: post) ->
  (forall p, In p pre -> exists iso1 r iso2, build p iso1 = Returns (Some r) iso2) ->
  build m iso_m = Returns None iso_m' ->
  exists x, scheduled_exception iso_m' = Some x /\
            forall iso, build js_rule iso = Returns None (throw_of (Some x) iso).
Proof.
  intros Htag Hkind Hmem Hpre Hm.
  apply RuleFromJsRule_Returns_inv in Hm. destruct Hm as (e & Hiso & [Hnull _] & Hm).
  destruct e as [x|]; [|exfalso; apply Hnull; reflexivity].
  exists x. split; [rewrite Hiso; reflexivity|]. intros iso.
  pose proof (members_loop_abort pre post m x Hpre Hm [] iso) as Hloop.
  destruct Hkind as [-> | ->]; enter Htag; unfold bind; rewrite Hmem; cbn;
    rewrite Hloop; reflexivity.
Qed.

(** C6.  What the code does with an invalid member that is an [ERROR], a
    [REPEAT] or a [REPEAT1] over a failed child: the member's build raises
    but returns a node, so the sequence or choice does not fail; it returns a
    node holding the member that wraps a null pointer.  When a later member
    fails as well, the exception left is the later member's, not that of the
    first invalid one. *)
Theorem invalid_member_is_kept (iso : Isolate) :
  build js_seq_with_wrapped_failure iso =
    Returns (Some (Sequence [Some (Repeat None); Some Blank]))
            (throw_of (Some (NanError "Unexpected rule type: FOO")) iso) /\
  build (JsObject [("type", JsString "CHOICE");
                   ("members", JsArray [js_repeat_of_unknown; js_blank])]) iso =
    Returns (Some (Choice [Some (Repeat None); Some Blank]))
            (throw_of (Some (NanError "Unexpected rule type: FOO")) iso) /\
  build js_seq_with_two_invalid iso =
    Returns None (throw_of (Some (NanError "Unexpected rule type: BAR")) iso).
Proof. split; [|split]; reflexivity. Qed.

(** ** Termination *)

(** The recursion of the builder only enters values nested in its argument:
    any bound above the nesting depth gives the same outcome, which is never
    a lack of fuel. *)
Lemma RuleFromJsRule_never_out_of_fuel (js_rule : JsValue) (iso : Isolate) :
  (forall fuel, depth js_rule < fuel -> fuelled fuel js_rule iso = build js_rule iso) /\
  build js_rule iso <> OutOfFuel.
Proof.
  split.
  - intros fuel Hfuel. apply RuleFromJsRule_fuel_enough. exact Hfuel.
  - destruct (RuleFromJsRule_determined V8 js_rule)
      as [Hub | (a & e & Hrun & _)]; [rewrite Hub | rewrite Hrun]; discriminate.
Qed.

(** C10.  What the code does with a text field whose string conversion
    throws: [String::Utf8Value] is left empty and [StringFromJsString] builds
    a [std::string] from its null pointer.  The build of a [STRING],
    [PATTERN] or [SYMBOL] with an object in that field whose [toString] is
    data returns neither a node nor a failure, also from inside a sequence. *)
Theorem text_conversion_does_not_return (iso : Isolate) :
  ToString V8 js_object_with_toString = None /\
  build js_string_of_object iso = UndefinedBehaviour /\
  build (JsObject [("type", JsString "PATTERN"); ("value", js_object_with_toString)]) iso =
    UndefinedBehaviour /\
  build (JsObject [("type", JsString "SYMBOL"); ("name", js_object_with_toString)]) iso =
    UndefinedBehaviour /\
  build (JsObject [("type", JsString "SEQ");
                   ("members", JsArray [js_blank; js_string_of_object])]) iso =
    UndefinedBehaviour.
Proof. repeat split; reflexivity. Qed.

(** ** Fields of a descriptor *)



(** C1.  What the code does with a child that fails to build: a [TOKEN]
    passes the failure on, but an [ERROR], a [REPEAT] and a [REPEAT1] wrap
    the null pointer into a node and return that node, the child's exception
    still scheduled. *)
Theorem single_child_wraps_failed_child (iso : Isolate) :
  let failed := JsObject [("type", JsString "FOO")] in
  let raised := throw_of (Some (NanError "Unexpected rule type: FOO")) iso in
  build failed iso = Returns None raised /\
  build (JsObject [("type", JsString "TOKEN"); ("value", failed)]) iso =
    Returns None raised /\
  build (JsObject [("type", JsString "ERROR"); ("value", failed)]) iso =
    Returns (Some (ErrorRecovery None)) raised /\
  build (JsObject [("type", JsString "REPEAT"); ("value", failed)]) iso =
    Returns (Some (Repeat None)) raised /\
  build (JsObject [("type", JsString "REPEAT1"); ("value", failed)]) iso =
    Returns (Some (Repeat1 None)) raised.
Proof. repeat split; reflexivity. Qed.

End RuleBuilder.

(* ================================================================== *)
(** * The grammar assembler *)

Section Assembler.

Variable V8 : Conversions.

Local Abbreviation build := (RuleFromJsRule V8).
Local Abbreviation rules_of := (rules_loop V8).
Local Abbreviation tokens_of := (ubiquitous_loop V8).
Local Abbreviation assemble := (GrammarFromJsGrammar V8).

Lemma rules_loop_determined (js_rules : JsValue) (rule_names : list JsValue) :
  forall rules, determined (rules_of js_rules rule_names rules) built.
Proof.
  induction rule_names as [|js_rule_name rest IH]; intros rules; simpl.
  - apply determined_ret. split; [discriminate | apply untagged_None].
  - apply determined_bind_StringFromJsString. intros text _.
    apply determined_bind_Get. intros name _ _.
    eapply determined_bind; [apply RuleFromJsRule_determined|].
    intros [r|] e1 [Hnull Hu]; cbn [get].
    + eapply determined_weaken; [|apply IH].
      intros res e2 [Hnull2 Hu2]. split; auto with bridge.
    + apply determined_ret. split; [intros _; apply Hnull; reflexivity | exact Hu].
Qed.

Lemma ubiquitous_loop_determined (js_tokens : list JsValue) :
  forall tokens, determined (tokens_of js_tokens tokens) (fun _ e => untagged e).
Proof.
  induction js_tokens as [|js_token rest IH]; intros tokens; simpl.
  - apply determined_ret. apply untagged_None.
  - eapply determined_bind; [apply RuleFromJsRule_determined|].
    intros r e1 [_ Hu]. eapply determined_weaken; [|apply IH].
    intros res e2 Hu2. cbv beta. auto with bridge.
Qed.

(** The assembler, too, is determined by its argument, and the exception it
    leaves is unmarked. *)
Lemma GrammarFromJsGrammar_determined (js_grammar : JsValue) :
  determined (assemble js_grammar) (fun _ e => untagged e).
Proof.
  unfold GrammarFromJsGrammar.
  assert (Hthrow : forall msg (res : Grammar * bool) e1, untagged e1 ->
            determined (bind (NanThrowTypeError msg) (fun _ => ret res))
                       (fun _ e2 => untagged (later e1 e2))).
  { intros msg res e1 _. right. exists res, (Some (NanTypeError msg)).
    split; [reflexivity|]. intros x Hx. injection Hx as <-. reflexivity. }
  apply determined_bind_ObjectGet. intros Hobj.
  destruct (IsObject (property js_grammar "rules")) eqn:Hrules; cbn [negb].
  - rewrite GetOwnPropertyNames_object by exact Hrules. apply determined_bind_ret.
    eapply determined_bind; [apply rules_loop_determined|].
    intros [rules|] e1 [_ Hu]; [|apply determined_ret; exact Hu].
    rewrite ObjectGet_object by exact Hobj. apply determined_bind_ret.
    destruct (IsUndefined (property js_grammar "ubiquitous")); cbn [negb];
      [apply determined_ret; exact Hu|].
    destruct (IsArray (property js_grammar "ubiquitous")); cbn [negb];
      [|apply Hthrow; exact Hu].
    apply determined_bind_ArrayElements. intros elems _.
    eapply determined_bind; [apply ubiquitous_loop_determined|].
    intros tokens e2 Hu2. apply determined_ret. cbv beta. auto with bridge.
  - eapply determined_weaken; [|apply (Hthrow _ _ None); apply untagged_None].
    intros res [x|] He; [exact He | apply untagged_None].
Qed.

(** ** The rule list *)

Lemma rules_loop_all_build (js_rules : JsValue) (keys : list string) :
  IsObject js_rules = true ->
  (forall k, In k keys ->
     exists iso1 r iso2, build (property js_rules k) iso1 = Returns (Some r) iso2) ->
  exists (nodes : list (string * rule_ptr)) (e : option JsException),
    untagged e /\
    Forall2 (fun k entry =>
               fst entry = c_str k /\ snd entry <> None /\
               forall iso, exists iso',
                 build (property js_rules k) iso = Returns (snd entry) iso')
            keys nodes /\
    forall rules iso,
      rules_of js_rules (map JsString keys) rules iso =
      Returns (Some (rules ++ nodes)) (throw_of e iso).
Proof.
  intros Hobj. induction keys as [|k keys IH]; intros Hbuild.
  - exists [], None. split; [apply untagged_None|]. split; [constructor|].
    intros rules iso. simpl. rewrite app_nil_r. reflexivity.
  - destruct (Hbuild k (or_introl eq_refl)) as (iso1 & r & iso2 & Hk).
    apply RuleFromJsRule_Returns_inv in Hk. destruct Hk as (e1 & _ & [_ Hu1] & Hk).
    destruct IH as (nodes & e2 & Hu2 & Hall & Hloop);
      [intros k' Hk'; apply Hbuild; right; exact Hk'|].
    exists ((c_str k, Some r) :: nodes), (later e1 e2).
    split; [auto with bridge|]. split.
    + constructor; [|exact Hall]. simpl. repeat split; [discriminate|].
      intros iso. eexists. apply Hk.
    + intros rules iso. simpl. rewrite StringFromJsString_string, bind_ret.
      rewrite ObjectGet_object by exact Hobj.
      rewrite bind_ret. unfold bind. rewrite Hk. cbn [get].
      rewrite Hloop, throw_of_later, <- app_assoc. reflexivity.
Qed.

Lemma c_str_names (keys : list string) (nodes : list (string * rule_ptr)) :
  Forall2 (fun k (entry : string * rule_ptr) => fst entry = c_str k) keys nodes ->
  Forall (fun k => c_str k = k) keys -> map fst nodes = keys.
Proof.
  induction 1 as [|k entry keys nodes Hk Hall IH]; intros Hnul; [reflexivity|].
  inversion Hnul as [|k' keys' Hk' Hkeys']; subst. simpl.
  rewrite Hk, Hk', IH by exact Hkeys'. reflexivity.
Qed.

(** C8.  When every entry of the rules mapping builds, the rule list of the
    assembled Grammar pairs the mapping's own keys, in their enumeration
    order, with the nodes their descriptors build into: entry [i] of the list
    carries key [i] (as the C++ string made of it, which is the key itself
    unless the key holds a NUL character) and the node of that key's
    descriptor.  Nothing is reordered. *)
Theorem rules_keep_enumeration_order (js_grammar : JsValue) :
  let js_rules := property js_grammar "rules" in
  let keys := own_property_names js_rules in
  IsObject js_grammar = true ->
  IsObject js_rules = true ->
  (forall k, In k keys ->
     exists iso1 r iso2, build (property js_rules k) iso1 = Returns (Some r) iso2) ->
  exists nodes : list (string * rule_ptr),
    Forall2 (fun k entry =>
               fst entry = c_str k /\ snd entry <> None /\
               forall iso, exists iso',
                 build (property js_rules k) iso = Returns (snd entry) iso')
            keys nodes /\
    (Forall (fun k => c_str k = k) keys -> map fst nodes = keys) /\
    forall iso,
      (forall grammar iso',
         assemble js_grammar iso = Returns (grammar, true) iso' ->
         rules grammar = nodes) /\
      (property js_grammar "ubiquitous" = JsUndefined ->
       exists iso', assemble js_grammar iso = Returns (Grammar_of nodes, true) iso').
Proof.
  intros js_rules keys Hobj Hrules Hbuild.
  destruct (rules_loop_all_build js_rules keys Hrules Hbuild)
    as (nodes & e & _ & Hall & Hloop).
  exists nodes. split; [exact Hall|]. split.
  - apply c_str_names. eapply Forall2_impl; [|exact Hall].
    intros k entry H. apply H.
  - intros iso.
    assert (Hrun : assemble js_grammar iso =
                   bind (ObjectGet js_grammar "ubiquitous")
                        (fun js_ubiquitous_tokens =>
                           if negb (IsUndefined js_ubiquitous_tokens) then
                             if negb (IsArray js_ubiquitous_tokens) then
                               bind (NanThrowTypeError "Expected ubiquitous_tokens to be an array")
                                    (fun _ => ret (Grammar_of [], false))
                             else
                               bind (ArrayElements js_ubiquitous_tokens)
                                    (fun elems =>
                                       bind (tokens_of elems [])
                                            (fun ubiquitous_tokens =>
                                               ret (set_ubiquitous_tokens (Grammar_of nodes)
                                                      ubiquitous_tokens, true)))
                           else ret (Grammar_of nodes, true))
                        (throw_of e iso)).
    { unfold GrammarFromJsGrammar. rewrite (ObjectGet_object js_grammar "rules") by exact Hobj.
      rewrite bind_ret. fold js_rules. rewrite Hrules. cbn [negb].
      rewrite GetOwnPropertyNames_object by exact Hrules. rewrite bind_ret.
      fold keys. unfold bind at 1. rewrite Hloop. reflexivity. }
    rewrite Hrun. rewrite ObjectGet_object by exact Hobj. rewrite bind_ret. split.
    + intros grammar iso'.
      destruct (IsUndefined (property js_grammar "ubiquitous")); cbn [negb].
      * intros H. injection H as <- _. reflexivity.
      * destruct (IsArray (property js_grammar "ubiquitous")); cbn [negb];
          [|intros H; discriminate H].
        unfold bind.
        destruct (ArrayElements _ _) as [elems iso1| |]; try discriminate.
        destruct (tokens_of elems [] iso1) as [tokens iso2| |]; try discriminate.
        intros H. injection H as <- _. reflexivity.
    + intros Habsent. rewrite Habsent. cbn. eexists. reflexivity.
Qed.

(** ** The ubiquitous tokens *)

(** C7.  The [ubiquitous] field is optional.  When it is absent, nothing is
    raised on its account and the assembled Grammar has no ubiquitous tokens:
    after the rules have been built, the result is the Grammar of those
    rules, with an empty token list.  When it is present but no array,
    assembly fails; after the rules have been built the exception is the
    TypeError "Expected ubiquitous_tokens to be an array" (the spec quotes
    this message as "expected ubiquitous tokens to be an array"). *)
Theorem ubiquitous_field (js_grammar : JsValue) (iso : Isolate) :
  let js_rules := property js_grammar "rules" in
  let js_ubiquitous_tokens := property js_grammar "ubiquitous" in
  IsObject js_grammar = true ->
  (js_ubiquitous_tokens = JsUndefined ->
   forall grammar ok iso',
     assemble js_grammar iso = Returns (grammar, ok) iso' ->
     ubiquitous_tokens grammar = []) /\
  (IsUndefined js_ubiquitous_tokens = false -> IsArray js_ubiquitous_tokens = false ->
   forall grammar ok iso',
     assemble js_grammar iso = Returns (grammar, ok) iso' -> ok = false) /\
  (forall rules iso1,
     IsObject js_rules = true ->
     rules_of js_rules (map JsString (own_property_names js_rules)) [] iso =
       Returns (Some rules) iso1 ->
     (js_ubiquitous_tokens = JsUndefined ->
      assemble js_grammar iso =
      Returns ({| rules := rules; ubiquitous_tokens := [] |}, true) iso1) /\
     (IsUndefined js_ubiquitous_tokens = false -> IsArray js_ubiquitous_tokens = false ->
      assemble js_grammar iso =
      Returns (Grammar_of [], false)
              (throw_of (Some (NanTypeError "Expected ubiquitous_tokens to be an array"))
                        iso1))).
Proof.
  intros js_rules js_ubiquitous_tokens Hobj.
  unfold GrammarFromJsGrammar. rewrite !ObjectGet_object by exact Hobj.
  rewrite bind_ret. fold js_rules js_ubiquitous_tokens.
  split; [|split].
  - intros Habsent grammar ok iso'. rewrite Habsent.
    destruct (IsObject js_rules) eqn:Hrules; cbn [negb].
    + rewrite GetOwnPropertyNames_object by exact Hrules. rewrite bind_ret.
      unfold bind at 1.
      destruct (rules_of js_rules _ [] iso) as [[rules|] iso1| |]; try discriminate;
        cbn; intros H; injection H as <- _ _; reflexivity.
    + cbn. intros H; injection H as <- _ _; reflexivity.
  - intros Hdef Harr grammar ok iso'.
    destruct (IsObject js_rules) eqn:Hrules; cbn [negb].
    + rewrite GetOwnPropertyNames_object by exact Hrules. rewrite bind_ret.
      unfold bind at 1.
      destruct (rules_of js_rules _ [] iso) as [[rules|] iso1| |]; try discriminate;
        rewrite ?bind_ret, ?Hdef, ?Harr; cbn;
        intros H; injection H as _ <- _; reflexivity.
    + cbn. intros H; injection H as _ <- _; reflexivity.
  - intros rules iso1 Hrules Hloop. rewrite Hrules. cbn [negb].
    rewrite GetOwnPropertyNames_object by exact Hrules. rewrite bind_ret.
    split.
    + intros Habsent. unfold bind at 1. rewrite Hloop, bind_ret, Habsent. reflexivity.
    + intros Hdef Harr. unfold bind at 1. rewrite Hloop, bind_ret, Hdef, Harr.
      reflexivity.
Qed.

(** C2.  What the code does with a ubiquitous token that fails to build:
    the null pointer is pushed onto the token list, the remaining tokens are
    built, and the assembler reports success with a Grammar holding them. *)
Theorem ubiquitous_failure_is_not_propagated (iso : Isolate) :
  let failed := JsObject [("type", JsString "FOO")] in
  let js_grammar :=
    JsObject [("rules", JsObject []);
              ("ubiquitous", JsArray [failed; JsObject [("type", JsString "BLANK")]])] in
  assemble js_grammar iso =
  Returns ({| rules := []; ubiquitous_tokens := [None; Some Blank] |}, true)
          (throw_of (Some (NanError "Unexpected rule type: FOO")) iso).
Proof. reflexivity. Qed.

End Assembler.

(* ================================================================== *)
(** * The compilation invoker *)

Lemma compiler_calls_throw_of (e : option JsException) (iso : Isolate) :
  compiler_calls (throw_of e iso) = compiler_calls iso.
Proof. destruct e; reflexivity. Qed.

Lemma scheduled_throw_of_untagged (e : option JsException) (iso : Isolate) :
  untagged (scheduled_exception iso) -> untagged e ->
  untagged (scheduled_exception (throw_of e iso)).
Proof. intros Hiso He. destruct e; simpl; assumption. Qed.

Lemma app_one_neq {A : Type} (l : list A) (x : A) : l <> l ++ [x].
Proof.
  intros H. apply (f_equal (@List.length A)) in H.
  rewrite length_app in H. simpl in H. lia.
Qed.

Section Invoker.

Variable V8 : Conversions.
Variable tree_sitter_compile : Grammar -> string -> string * option GrammarError.

Local Abbreviation assemble := (GrammarFromJsGrammar V8).
Local Abbreviation run := (Compile V8 tree_sitter_compile).

(** What a call of [Compile] on an object comes to, given the string form
    of its [name] and what the assembler does on it. *)
Lemma Compile_object (args0 : JsValue) (text : string) (iso : Isolate) :
  IsObject args0 = true ->
  ToString V8 (property args0 "name") = Some text ->
  let name := c_str text in
  let e_name := if IsString (property args0 "name") then None
                else Some (NanTypeError "Expected grammar name to be a string") in
  run args0 iso =
  match assemble args0 (throw_of e_name iso) with
  | Returns (grammar, true) iso1 =>
      let result := tree_sitter_compile grammar name in
      Returns (JsString (fst result))
        {| scheduled_exception :=
             match snd result with
             | Some e => Some (grammar_error e)
             | None => scheduled_exception iso1
             end;
           compiler_calls := compiler_calls iso1 ++ [(grammar, name)] |}
  | Returns (grammar, false) iso1 => Returns JsUndefined iso1
  | UndefinedBehaviour => UndefinedBehaviour
  | OutOfFuel => OutOfFuel
  end.
Proof.
  intros Hobj Htext name e_name. unfold Compile.
  rewrite Hobj, ObjectGet_object by exact Hobj. cbn [negb].
  rewrite !bind_ret. unfold StringFromJsString. rewrite Htext. unfold e_name.
  destruct (IsString (property args0 "name")); cbn [negb]; unfold bind;
    cbn [NanThrowTypeError ThrowException ret throw_of];
    (destruct (assemble args0 _) as [[grammar [|]] iso1| |]; try reflexivity;
     cbn; destruct (snd (tree_sitter_compile grammar _)); reflexivity).
Qed.

Lemma Compile_not_object (args0 : JsValue) (iso : Isolate) :
  IsObject args0 = false -> run args0 iso = UndefinedBehaviour.
Proof.
  intros Hobj. unfold Compile. rewrite Hobj, ObjectGet_not_object by exact Hobj.
  reflexivity.
Qed.

Lemma Compile_name_without_text (args0 : JsValue) (iso : Isolate) :
  ToString V8 (property args0 "name") = None -> run args0 iso = UndefinedBehaviour.
Proof.
  intros Htext. destruct (IsObject args0) eqn:Hobj;
    [|apply Compile_not_object; exact Hobj].
  unfold Compile. rewrite Hobj, ObjectGet_object by exact Hobj. cbn [negb].
  rewrite !bind_ret. unfold StringFromJsString. rewrite Htext.
  destruct (IsString (property args0 "name")); reflexivity.
Qed.

(** The cases of a call that returns. *)
Lemma Compile_Returns (args0 : JsValue) (iso iso' : Isolate) (result : JsValue) :
  run args0 iso = Returns result iso' ->
  IsObject args0 = true /\ exists text, ToString V8 (property args0 "name") = Some text.
Proof.
  intros Hrun. destruct (IsObject args0) eqn:Hobj;
    [|rewrite Compile_not_object in Hrun by exact Hobj; discriminate].
  split; [reflexivity|].
  destruct (ToString V8 (property args0 "name")) as [text|] eqn:Htext;
    [exists text; reflexivity|].
  rewrite Compile_name_without_text in Hrun by exact Htext. discriminate.
Qed.

(** C9.  When the compiler is called and rejects the grammar, the exception
    [Compile] leaves is an [Error] with the compiler's message (as a C
    string: up to its first NUL character, if it has one) and
    [isGrammarError] set to [true].  Conversely an exception left by a call
    carries that mark only if the compiler was called and rejected the
    grammar: the validation errors of the rule builder, the assembler and of
    [Compile] itself are unmarked. *)
Theorem grammar_error_is_marked (args0 : JsValue) (iso iso' : Isolate) (result : JsValue) :
  run args0 iso = Returns result iso' ->
  (forall grammar name e,
     compiler_calls iso' = compiler_calls iso ++ [(grammar, name)] ->
     snd (tree_sitter_compile grammar name) = Some e ->
     scheduled_exception iso' =
     Some {| error_type := Error; error_message := c_str (message e);
             isGrammarError := true |}) /\
  (untagged (scheduled_exception iso) ->
   forall x, scheduled_exception iso' = Some x -> isGrammarError x = true ->
   exists grammar name e,
     compiler_calls iso' = compiler_calls iso ++ [(grammar, name)] /\
     snd (tree_sitter_compile grammar name) = Some e /\
     x = grammar_error e).
Proof.
  intros Hrun.
  destruct (Compile_Returns _ _ _ _ Hrun) as (Hobj & text & Htext).
  rewrite (Compile_object _ text) in Hrun by assumption. cbv zeta in Hrun.
  set (e_name := if IsString (property args0 "name") then None
                 else Some (NanTypeError "Expected grammar name to be a string")) in *.
  assert (Hname : untagged e_name).
  { unfold e_name. destruct (IsString _); intros x Hx; [discriminate|].
    injection Hx as <-. reflexivity. }
  destruct (GrammarFromJsGrammar_determined V8 args0)
    as [Hub | ([grammar ok] & e & Hasm & Hu)].
  { rewrite Hub in Hrun. discriminate. }
  rewrite Hasm, throw_of_later in Hrun.
  assert (Hlater : untagged (later e_name e)) by auto with bridge.
  destruct ok.
  - injection Hrun as _ <-. simpl. rewrite compiler_calls_throw_of. split.
    + intros grammar' name' e' Hcalls He'.
      apply app_inv_head in Hcalls. injection Hcalls as <- <-.
      rewrite He'. reflexivity.
    + intros Hiso x Hx Hmark.
      destruct (snd (tree_sitter_compile grammar _)) as [e'|] eqn:He'.
      * injection Hx as <-.
        exists grammar, (c_str text), e'.
        repeat split. exact He'.
      * pose proof (scheduled_throw_of_untagged _ _ Hiso Hlater x Hx). congruence.
  - injection Hrun as _ <-. rewrite compiler_calls_throw_of. split.
    + intros grammar' name' e' Hcalls. exfalso. exact (app_one_neq _ _ Hcalls).
    + intros Hiso x Hx Hmark.
      pose proof (scheduled_throw_of_untagged _ _ Hiso Hlater x Hx). congruence.
Qed.

(** C3.  What the code does when the grammar has no [name], or one that is
    no string: the TypeError is scheduled, but the call goes on; the grammar
    is assembled and the compiler is called, with the string form of the
    name (["undefined"], ["42"]).  A rejection by the compiler then replaces
    the TypeError. *)
Theorem missing_name_reaches_compiler (iso : Isolate) :
  let js_rules := JsObject [("a", JsObject [("type", JsString "BLANK")])] in
  let grammar := Grammar_of [("a", Some Blank)] in
  let outcome name :=
    let result := tree_sitter_compile grammar name in
    Returns (JsString (fst result))
      {| scheduled_exception :=
           match snd result with
           | Some e => Some (grammar_error e)
           | None => Some (NanTypeError "Expected grammar name to be a string")
           end;
         compiler_calls := compiler_calls iso ++ [(grammar, name)] |} in
  run (JsObject [("rules", js_rules)]) iso = outcome "undefined" /\
  run (JsObject [("name", JsNumber 42); ("rules", js_rules)]) iso = outcome "42".
Proof.
  split;
    [rewrite (Compile_object _ "undefined") by reflexivity
    |rewrite (Compile_object _ "42") by reflexivity]; reflexivity.
Qed.

End Invoker.

(* ================================================================== *)
(** * The properties at sample inputs *)

(** The spec's examples 1 to 3 and the [BLANK] leaf. *)
Lemma well_formed_descriptor_builds_witness :
  let build := RuleFromJsRule sample_V8 in
  build (js_string "foo") fresh_isolate =
    Returns (Some (StringLiteral "foo")) fresh_isolate /\
  build js_seq_example fresh_isolate =
    Returns (Some (Sequence [Some (StringLiteral "a"); Some Blank])) fresh_isolate /\
  build js_prec_left_example fresh_isolate =
    Returns (Some (PrecedenceLeft 2 (Some (Symbol "expr")))) fresh_isolate /\
  build js_blank fresh_isolate = Returns (Some Blank) fresh_isolate.
Proof.
  intros build. split; [|split; [|split]]; apply well_formed_descriptor_builds.
  - apply describes_string; split; reflexivity.
  - apply (describes_seq _ [js_string "a"; js_blank]); [split; reflexivity | reflexivity|].
    apply describes_cons; [apply describes_string; split; reflexivity|].
    apply describes_cons; [apply describes_blank; split; reflexivity|].
    apply describes_nil.
  - apply describes_prec_left; [split; reflexivity | split; [reflexivity | lia]|].
    apply describes_symbol; split; reflexivity.
  - apply describes_blank; split; reflexivity.
Defined.

(** The second member is invalid: its error surfaces, and the third member,
    which lacks its [members], is never reached. *)
Lemma composite_eager_abort_witness :
  exists x,
    x = NanError "Unexpected rule type: FOO" /\
    forall iso,
      RuleFromJsRule sample_V8 js_seq_with_invalid_member iso =
      Returns None (throw_of (Some x) iso).
Proof.
  assert (Hpre : forall p, In p [js_string "a"] ->
            exists iso1 r iso2,
              RuleFromJsRule sample_V8 p iso1 = Returns (Some r) iso2).
  { intros p [<- | []]. exists fresh_isolate, (StringLiteral "a"), fresh_isolate.
    reflexivity. }
  destruct (composite_eager_abort sample_V8 js_seq_with_invalid_member "SEQ"
              [js_string "a"] [js_seq_without_members] js_unknown fresh_isolate
              (throw_of (Some (NanError "Unexpected rule type: FOO")) fresh_isolate)
              (conj eq_refl eq_refl) (or_introl eq_refl) eq_refl Hpre eq_refl)
    as (x & Hx & Hrun).
  exists x. split; [|exact Hrun]. simpl in Hx. injection Hx as <-. reflexivity.
Defined.



(** Without a [ubiquitous] field the token list is empty; with the number 5
    in it, assembly fails with the TypeError. *)
Lemma ubiquitous_field_witness :
  GrammarFromJsGrammar sample_V8 js_grammar_b_a fresh_isolate =
    Returns ({| rules := [("b", Some Blank); ("a", Some (StringLiteral "x"))];
                ubiquitous_tokens := [] |}, true) fresh_isolate /\
  GrammarFromJsGrammar sample_V8 js_grammar_bad_ubiquitous fresh_isolate =
    Returns (Grammar_of [], false)
      (throw_of (Some (NanTypeError "Expected ubiquitous_tokens to be an array"))
                fresh_isolate).
Proof.
  split.
  - apply (proj1 (proj2 (proj2 (ubiquitous_field sample_V8 js_grammar_b_a
                                  fresh_isolate eq_refl))
                    [("b", Some Blank); ("a", Some (StringLiteral "x"))] fresh_isolate
                    eq_refl eq_refl)).
    reflexivity.
  - apply (proj2 (proj2 (proj2 (ubiquitous_field sample_V8
                                  js_grammar_bad_ubiquitous fresh_isolate eq_refl))
                    [("b", Some Blank); ("a", Some (StringLiteral "x"))] fresh_isolate
                    eq_refl eq_refl));
      reflexivity.
Defined.

(** Rules declared as [b], then [a], are listed as [b], then [a]. *)
Lemma rules_keep_enumeration_order_witness :
  exists grammar iso',
    GrammarFromJsGrammar sample_V8 js_grammar_b_a fresh_isolate =
      Returns (grammar, true) iso' /\
    map fst (rules grammar) = ["b"; "a"].
Proof.
  assert (Hbuild : forall k, In k ["b"; "a"] ->
            exists iso1 r iso2,
              RuleFromJsRule sample_V8 (property js_rules_b_a k) iso1 =
              Returns (Some r) iso2).
  { intros k [<- | [<- | []]].
    - exists fresh_isolate, Blank, fresh_isolate. reflexivity.
    - exists fresh_isolate, (StringLiteral "x"), fresh_isolate. reflexivity. }
  destruct (rules_keep_enumeration_order sample_V8 js_grammar_b_a
              eq_refl eq_refl Hbuild) as (nodes & _ & Hnames & Hrun).
  destruct (Hrun fresh_isolate) as [_ Habsent].
  destruct (Habsent eq_refl) as (iso' & Hasm).
  exists (Grammar_of nodes), iso'. split; [exact Hasm|].
  apply Hnames. repeat constructor.
Defined.

(** A rule refers to a symbol nobody declares and the compiler rejects the
    grammar: the error carries the compiler's message and the mark. *)
Lemma grammar_error_is_marked_witness :
  exists result iso',
    Compile sample_V8 rejecting_compiler js_grammar_undeclared_symbol
            fresh_isolate = Returns result iso' /\
    scheduled_exception iso' =
    Some {| error_type := Error; error_message := "Undefined rule 'expr'";
            isGrammarError := true |}.
Proof.
  exists (JsString ""),
    {| scheduled_exception := Some (grammar_error {| message := "Undefined rule 'expr'" |});
       compiler_calls := [(Grammar_of [("a", Some (Symbol "expr"))], "g")] |}.
  split; [reflexivity|].
  apply (proj1 (grammar_error_is_marked sample_V8 rejecting_compiler
                  js_grammar_undeclared_symbol fresh_isolate _ (JsString "") eq_refl)
           (Grammar_of [("a", Some (Symbol "expr"))]) "g"
           {| message := "Undefined rule 'expr'" |}); reflexivity.
Defined.

(** The spec's example 5: a grammar the compiler accepts comes back as the
    generated code, nothing raised, the compiler called once. *)
Lemma Compile_accepted_grammar :
  Compile sample_V8 accepting_compiler js_grammar_b_a fresh_isolate =
  Returns (JsString "/* parser */")
    {| scheduled_exception := None;
       compiler_calls :=
         [(Grammar_of [("b", Some Blank); ("a", Some (StringLiteral "x"))], "g")] |}.
Proof. reflexivity. Qed.

(** The spec's example 4: an unknown tag is named in the error. *)
Lemma RuleFromJsRule_unknown_tag :
  RuleFromJsRule sample_V8 js_unknown fresh_isolate =
  Returns None (throw_of (Some (NanError "Unexpected rule type: FOO")) fresh_isolate).
Proof. reflexivity. Qed.

(* ================================================================== *)
(** * Further properties of the rule builder *)

Section BuilderShape.

Variable V8 : Conversions.

Local Abbreviation body := (RuleFromJsRule_body V8).
Local Abbreviation build := (RuleFromJsRule V8).

Lemma RuleFromJsRule_shaped_inv (js_rule : JsValue) (iso iso' : Isolate) (rule : rule_ptr) :
  build js_rule iso = Returns rule iso' ->
  exists e, iso' = throw_of e iso /\ shaped rule e.
Proof.
  intros H. destruct (RuleFromJsRule_shaped V8 js_rule) as [Hub | (a & e & Hrun & Hshaped)].
  - rewrite Hub in H. discriminate.
  - rewrite Hrun in H. injection H as <- <-. exists e. auto.
Qed.

(** X1.  A descriptor whose [type] is a string but none of the 13 tags
    fails to build, and the [Error] raised names the type as the builder
    read it. *)
Theorem unknown_tag_is_named (d : JsValue) (type : string) :
  IsObject d = true ->
  property d "type" = JsString type ->
  ~ In (c_str type) known_tags ->
  forall iso,
    build d iso =
    Returns None (throw_of (Some (NanError ("Unexpected rule type: " ++ c_str type))) iso).
Proof.
  intros Hobj Htype Hunknown iso.
  assert (Hneq : forall tag, In tag known_tags -> String.eqb (c_str type) tag = false).
  { intros tag Hin. apply String.eqb_neq. intros Heq. apply Hunknown.
    rewrite Heq. exact Hin. }
  rewrite RuleFromJsRule_unfold. unfold RuleFromJsRule_body.
  rewrite Hobj, !ObjectGet_object by exact Hobj. cbn [negb].
  rewrite bind_ret, Htype. cbn [IsString negb].
  rewrite StringFromJsString_string, bind_ret.
  rewrite !Hneq by (simpl; tauto). reflexivity.
Qed.

(** X2.  The two checks at the head of the builder: a value that is no
    object (a string, a number, [null], a missing field) fails with "Expected
    rule to be an object"; an object or array whose [type] is missing or is
    no string fails with "Expected rule type to be a string". *)
Theorem descriptor_head_checks (d : JsValue) (iso : Isolate) :
  (IsObject d = false ->
   build d iso =
   Returns None (throw_of (Some (NanTypeError "Expected rule to be an object")) iso)) /\
  (IsObject d = true -> IsString (property d "type") = false ->
   build d iso =
   Returns None (throw_of (Some (NanTypeError "Expected rule type to be a string")) iso)).
Proof.
  split.
  - intros Hobj. rewrite RuleFromJsRule_unfold. unfold RuleFromJsRule_body.
    rewrite Hobj. reflexivity.
  - intros Hobj Hstr. rewrite RuleFromJsRule_unfold. unfold RuleFromJsRule_body.
    rewrite Hobj, !ObjectGet_object by exact Hobj. cbn [negb].
    rewrite bind_ret, Hstr. reflexivity.
Qed.

(** X3.  The builder reads five fields of a descriptor and no other: two
    objects that agree on [type], [members], [value], [rule] and [name]
    build alike, whatever else they hold and in whatever order. *)
Theorem only_five_fields_are_read (d1 d2 : JsValue) :
  IsObject d1 = true -> IsObject d2 = true ->
  (forall key, In key ["type"; "members"; "value"; "rule"; "name"] ->
               property d1 key = property d2 key) ->
  forall iso, build d1 iso = build d2 iso.
Proof.
  intros Hobj1 Hobj2 Hsame iso.
  rewrite !RuleFromJsRule_unfold. unfold RuleFromJsRule_body.
  rewrite Hobj1, Hobj2.
  rewrite !(ObjectGet_object d1) by exact Hobj1.
  rewrite !(ObjectGet_object d2) by exact Hobj2.
  rewrite !Hsame by (simpl; tauto). reflexivity.
Qed.

(** X4.  The exceptions a build can leave are of four kinds only.  A build
    either leaves the isolate as it was, or schedules one of the builder's
    own three ("Expected rule to be an object", "Expected rule type to be a
    string", "Unexpected rule type: ...") or the TypeError "Cannot convert
    object to primitive value" that V8 raises while reading a precedence
    level; a null pointer always comes with one of the builder's three.  A
    build never touches the trace of compiler calls. *)
Theorem builder_raises_four_errors (js_rule : JsValue) (iso iso' : Isolate) (rule : rule_ptr) :
  build js_rule iso = Returns rule iso' ->
  (iso' = iso /\ rule <> None) \/
  exists x, (builder_error x \/ (x = no_primitive_value /\ rule <> None)) /\
            iso' = {| scheduled_exception := Some x; compiler_calls := compiler_calls iso |}.
Proof.
  intros H. apply RuleFromJsRule_shaped_inv in H.
  destruct H as (e & -> & Hkind & Hnull & _).
  assert (Hrule : rule = None -> exists x, e = Some x /\ builder_error x) by exact Hnull.
  destruct e as [x|].
  - right. exists x. split; [|reflexivity].
    destruct (Hkind x eq_refl) as [Hx | Hx]; [left; exact Hx|].
    destruct rule as [r|]; [right; split; [exact Hx | discriminate]|].
    destruct (Hrule eq_refl) as (y & Hy & Herr). injection Hy as <-. left. exact Herr.
  - left. split; [reflexivity|]. intros Hr. destruct (Hrule Hr) as (y & Hy & _).
    discriminate.
Qed.

(** X5.  In every node the builder returns, the members of a sequence or
    choice and the child of a token or precedence are there; a null pointer
    can only sit directly under an error, a repeat or a repeat1 node. *)
Theorem null_only_under_wrappers (js_rule : JsValue) (iso iso' : Isolate) (r : Rule) :
  build js_rule iso = Returns (Some r) iso' -> guarded r = true.
Proof.
  intros H. apply RuleFromJsRule_shaped_inv in H.
  destruct H as (e & _ & _ & _ & Hg & _). apply Hg. reflexivity.
Qed.

(** X6.  A build that ends without a scheduled exception has returned a
    node, and no pointer in that node's tree is null: a failed child never
    goes unnoticed. *)
Theorem no_exception_no_null (js_rule : JsValue) (iso iso' : Isolate) (rule : rule_ptr) :
  build js_rule iso = Returns rule iso' ->
  scheduled_exception iso' = None ->
  exists r, rule = Some r /\ complete r = true.
Proof.
  intros H Hafter.
  apply RuleFromJsRule_shaped_inv in H. destruct H as (e & -> & _ & _ & _ & Hc).
  destruct e as [x|]; [discriminate|]. specialize (Hc eq_refl).
  destruct rule as [r|]; [|discriminate]. exists r. auto.
Qed.

End BuilderShape.

(* ================================================================== *)
(** * Further properties of the grammar assembler *)

Section AssemblerShape.

Variable V8 : Conversions.

Local Abbreviation build := (RuleFromJsRule V8).
Local Abbreviation rules_of := (rules_loop V8).
Local Abbreviation tokens_of := (ubiquitous_loop V8).
Local Abbreviation assemble := (GrammarFromJsGrammar V8).

Lemma rules_loop_shaped (js_rules : JsValue) (rule_names : list JsValue) :
  forall collected,
    determined (rules_of js_rules rule_names collected)
      (fun rules e =>
         (forall x, e = Some x -> builder_error x \/ x = no_primitive_value) /\
         (rules = None -> exists x, e = Some x /\ builder_error x) /\
         (e = None -> exists rs, rules = Some rs /\
                        (complete_rules collected = true -> complete_rules rs = true))).
Proof.
  induction rule_names as [|js_rule_name rest IH]; intros collected; simpl.
  - apply determined_ret. split; [discriminate|split]; [discriminate|].
    intros _. exists collected. auto.
  - apply determined_bind_StringFromJsString. intros text _.
    apply determined_bind_Get. intros name _ _.
    eapply determined_bind; [apply RuleFromJsRule_shaped|].
    intros [r|] e1 (Ht & Hnull & _ & Hc); cbn [get].
    + eapply determined_weaken; [|apply IH].
      intros res e2 (Ht2 & Hnull2 & Hc2). split; [|split].
      * apply known_exception_later; assumption.
      * intros Hres. destruct (Hnull2 Hres) as (y & -> & Hy). exists y. auto.
      * intros He. apply later_None_inv in He. destruct He as [He1 He2].
        destruct (Hc2 He2) as (rs & Hrs & Hall). exists rs. split; [exact Hrs|].
        intros Hcoll. apply Hall. unfold complete_rules in *.
        rewrite forallb_app, Hcoll. cbn [forallb snd]. rewrite (Hc He1). reflexivity.
    + apply determined_ret. cbn [later]. split; [exact Ht|split].
      * intros _. apply Hnull. reflexivity.
      * intros He. specialize (Hc He). discriminate.
Qed.

Lemma ubiquitous_loop_shaped (js_tokens : list JsValue) :
  forall collected,
    determined (tokens_of js_tokens collected)
      (fun tokens e =>
         (forall x, e = Some x -> builder_error x \/ x = no_primitive_value) /\
         (e = None -> forallb complete_ptr collected = true ->
                      forallb complete_ptr tokens = true)).
Proof.
  induction js_tokens as [|js_token rest IH]; intros collected; simpl.
  - apply determined_ret. split; [discriminate | auto].
  - eapply determined_bind; [apply RuleFromJsRule_shaped|].
    intros rule e1 (Ht & _ & _ & Hc).
    eapply determined_weaken; [|apply IH].
    intros tokens e2 (Ht2 & Hc2). split.
    + apply known_exception_later; assumption.
    + intros He Hcoll. apply later_None_inv in He. destruct He as [He1 He2].
      apply (Hc2 He2). rewrite forallb_app, Hcoll. cbn [forallb].
      rewrite (Hc He1). reflexivity.
Qed.

Lemma assembled_throw (msg : string) (e1 : option JsException) :
  assembler_error (NanTypeError msg) ->
  determined (bind (NanThrowTypeError msg) (fun _ => ret (Grammar_of [], false)))
             (fun result e2 => assembled result (later e1 e2)).
Proof.
  intros Hmsg. right. exists (Grammar_of [], false), (Some (NanTypeError msg)).
  split; [reflexivity|]. split; [|split].
  - intros x Hx. injection Hx as <-. left. exact Hmsg.
  - intros _. split; [reflexivity|]. exists (NanTypeError msg). auto.
  - discriminate.
Qed.

Lemma known_to_assembler (e : option JsException) :
  (forall x, e = Some x -> builder_error x \/ x = no_primitive_value) ->
  forall x, e = Some x -> assembler_error x \/ x = no_primitive_value.
Proof.
  intros H x Hx. destruct (H x Hx) as [Hb | Hv]; [left; left; exact Hb | right; exact Hv].
Qed.

Lemma GrammarFromJsGrammar_shaped (js_grammar : JsValue) :
  determined (assemble js_grammar) assembled.
Proof.
  unfold GrammarFromJsGrammar.
  apply determined_bind_ObjectGet. intros Hobj.
  destruct (IsObject (property js_grammar "rules")) eqn:Hrules; cbn [negb].
  - rewrite GetOwnPropertyNames_object by exact Hrules. apply determined_bind_ret.
    eapply determined_bind; [apply rules_loop_shaped|].
    intros [rules|] e1 (Ht & Hnull & Hc).
    + rewrite ObjectGet_object by exact Hobj. apply determined_bind_ret.
      assert (Hrules_complete : e1 = None -> complete_rules rules = true).
      { intros He. destruct (Hc He) as (rs & Hrs & Hall). injection Hrs as <-.
        apply Hall. reflexivity. }
      destruct (IsUndefined (property js_grammar "ubiquitous")); cbn [negb].
      * apply determined_ret. cbn [later]. split; [|split].
        -- apply known_to_assembler. exact Ht.
        -- discriminate.
        -- intros He. split; [reflexivity|]. unfold complete_grammar. simpl.
           rewrite (Hrules_complete He). reflexivity.
      * destruct (IsArray (property js_grammar "ubiquitous")); cbn [negb].
        -- apply determined_bind_ArrayElements. intros elems _.
           eapply determined_bind; [apply ubiquitous_loop_shaped|].
           intros tokens e2 (Ht2 & Hc2). apply determined_ret. cbn [later].
           split; [|split].
           ++ apply known_to_assembler. apply known_exception_later; assumption.
           ++ discriminate.
           ++ intros He. apply later_None_inv in He. destruct He as [He1 He2].
              split; [reflexivity|]. unfold complete_grammar. simpl.
              rewrite (Hrules_complete He1), (Hc2 He2 eq_refl). reflexivity.
        -- apply assembled_throw. right. right. reflexivity.
    + apply determined_ret. cbn [later]. split; [|split].
      * apply known_to_assembler. exact Ht.
      * intros _. split; [reflexivity|].
        destruct (Hnull eq_refl) as (x & Hx & Hb). exists x. split; [exact Hx|].
        left. exact Hb.
      * intros He. destruct (Hnull eq_refl) as (x & Hx & _). congruence.
  - eapply determined_weaken;
      [|apply (assembled_throw "Expected rules to be an object" None);
        right; left; reflexivity].
    intros result [x|] H; exact H.
Qed.

Lemma GrammarFromJsGrammar_shaped_inv (js_grammar : JsValue) (iso iso' : Isolate)
    (result : Grammar * bool) :
  assemble js_grammar iso = Returns result iso' ->
  exists e, iso' = throw_of e iso /\ assembled result e.
Proof.
  intros H.
  destruct (GrammarFromJsGrammar_shaped js_grammar) as [Hub | (a & e & Hrun & Hshaped)].
  - rewrite Hub in H. discriminate.
  - rewrite Hrun in H. injection H as <- <-. exists e. auto.
Qed.

Lemma rules_loop_abort (js_rules : JsValue) (pre post : list string) (k : string)
    (x : JsException) :
  IsObject js_rules = true ->
  (forall p, In p pre ->
     exists iso1 r iso2, build (property js_rules p) iso1 = Returns (Some r) iso2) ->
  (forall iso, build (property js_rules k) iso = Returns None (throw_of (Some x) iso)) ->
  forall collected iso,
    rules_of js_rules (map JsString (pre ++ k :: post)) collected iso =
    Returns None (throw_of (Some x) iso).
Proof.
  intros Hobj Hpre Hk. induction pre as [|p pre IH]; intros collected iso; simpl;
    rewrite StringFromJsString_string, bind_ret;
    rewrite ObjectGet_object by exact Hobj; rewrite bind_ret; unfold bind.
  - rewrite Hk. reflexivity.
  - destruct (Hpre p (or_introl eq_refl)) as (iso1 & r & iso2 & Hp).
    apply RuleFromJsRule_Returns_inv in Hp. destruct Hp as (e & _ & _ & Hp).
    rewrite Hp. cbn [get].
    rewrite IH by (intros; apply Hpre; right; assumption).
    rewrite throw_of_later. reflexivity.
Qed.

(** X7.  The rules are built in the order of their names and assembly gives
    up at the first rule whose build returns no node: the result is the
    empty Grammar flagged as failed, the exception is the one that rule's
    build leaves, and neither the rules after it nor the [ubiquitous] field
    are looked at. *)
Theorem first_failing_rule_aborts_assembly (js_grammar : JsValue)
    (pre post : list string) (k : string) (iso_k iso_k' : Isolate) :
  let js_rules := property js_grammar "rules" in
  IsObject js_grammar = true ->
  IsObject js_rules = true ->
  own_property_names js_rules = pre ++ k :: post ->
  (forall p, In p pre ->
     exists iso1 r iso2, build (property js_rules p) iso1 = Returns (Some r) iso2) ->
  build (property js_rules k) iso_k = Returns None iso_k' ->
  exists x, scheduled_exception iso_k' = Some x /\
            forall iso,
              assemble js_grammar iso =
              Returns (Grammar_of [], false) (throw_of (Some x) iso).
Proof.
  intros js_rules Hobj Hrules Hnames Hpre Hk.
  apply RuleFromJsRule_Returns_inv in Hk. destruct Hk as (e & Hiso & [Hnull _] & Hk).
  destruct e as [x|]; [|exfalso; apply Hnull; reflexivity].
  exists x. split; [rewrite Hiso; reflexivity|]. intros iso.
  unfold GrammarFromJsGrammar. rewrite (ObjectGet_object js_grammar "rules") by exact Hobj.
  rewrite bind_ret. fold js_rules. rewrite Hrules. cbn [negb].
  rewrite GetOwnPropertyNames_object by exact Hrules. rewrite bind_ret, Hnames.
  unfold bind at 1. rewrite (rules_loop_abort js_rules pre post k x Hrules Hpre Hk).
  reflexivity.
Qed.

(** X8.  A failed assembly hands back nothing partial: whenever the flag is
    [false], the Grammar returned is the empty one and an exception is
    scheduled, one of the builder's three or "Expected rules to be an object"
    or "Expected ubiquitous_tokens to be an array". *)
Theorem failed_assembly_is_empty (js_grammar : JsValue) (iso iso' : Isolate)
    (grammar : Grammar) :
  assemble js_grammar iso = Returns (grammar, false) iso' ->
  grammar = Grammar_of [] /\
  exists x, scheduled_exception iso' = Some x /\ assembler_error x.
Proof.
  intros H. apply GrammarFromJsGrammar_shaped_inv in H.
  destruct H as (e & -> & Hkind & Hfail & _).
  destruct (Hfail eq_refl) as (Hempty & x & -> & Hx). split; [exact Hempty|].
  exists x. split; [reflexivity | exact Hx].
Qed.

Lemma ubiquitous_loop_all (js_tokens : list JsValue) :
  (forall t, In t js_tokens -> exists iso r iso', build t iso = Returns r iso') ->
  exists (tokens : list rule_ptr) (e : option JsException),
    Forall2 (fun t rule => forall iso, exists iso', build t iso = Returns rule iso')
            js_tokens tokens /\
    forall collected iso,
      tokens_of js_tokens collected iso = Returns (collected ++ tokens) (throw_of e iso).
Proof.
  induction js_tokens as [|t rest IH]; intros Hdef.
  - exists [], None. split; [constructor|]. intros collected iso. simpl.
    rewrite app_nil_r. reflexivity.
  - destruct (Hdef t (or_introl eq_refl)) as (iso0 & r & iso0' & Ht).
    apply RuleFromJsRule_Returns_inv in Ht. destruct Ht as (e1 & _ & _ & Ht).
    destruct IH as (tokens & e2 & Hall & Hloop);
      [intros; apply Hdef; right; assumption|].
    exists (r :: tokens), (later e1 e2). split.
    + constructor; [|exact Hall]. intros iso. eexists. apply Ht.
    + intros collected iso. simpl. unfold bind. rewrite Ht, Hloop, throw_of_later.
      rewrite <- app_assoc. reflexivity.
Qed.

(** X9.  The ubiquitous tokens keep their order and their number: once the
    rules are built and [ubiquitous] is an array, assembly succeeds with one
    token per element of the array, in the array's order, each being the
    pointer the builder returns for that element (a null pointer included). *)
Theorem ubiquitous_tokens_keep_order (js_grammar : JsValue) (js_tokens : list JsValue)
    (rules : list (string * rule_ptr)) (iso iso1 : Isolate) :
  let js_rules := property js_grammar "rules" in
  IsObject js_grammar = true ->
  IsObject js_rules = true ->
  rules_of js_rules (map JsString (own_property_names js_rules)) [] iso =
    Returns (Some rules) iso1 ->
  property js_grammar "ubiquitous" = JsArray js_tokens ->
  (forall t, In t js_tokens -> exists iso0 r iso0', build t iso0 = Returns r iso0') ->
  exists tokens iso',
    assemble js_grammar iso =
      Returns ({| rules := rules; ubiquitous_tokens := tokens |}, true) iso' /\
    Forall2 (fun t rule => forall iso0, exists iso0', build t iso0 = Returns rule iso0')
            js_tokens tokens.
Proof.
  intros js_rules Hobj Hrules Hloop Hub Hdef.
  destruct (ubiquitous_loop_all js_tokens Hdef) as (tokens & e & Hall & Htokens).
  exists tokens, (throw_of e iso1). split; [|exact Hall].
  unfold GrammarFromJsGrammar. rewrite !ObjectGet_object by exact Hobj.
  rewrite bind_ret. fold js_rules. rewrite Hrules. cbn [negb].
  rewrite GetOwnPropertyNames_object by exact Hrules. rewrite bind_ret.
  unfold bind at 1. rewrite Hloop, bind_ret, Hub. cbn [IsUndefined IsArray negb ArrayElements].
  rewrite bind_ret. unfold bind. rewrite Htokens. reflexivity.
Qed.

(** X10.  An assembly that ends without a scheduled exception has
    succeeded, and its Grammar is whole: no rule and no ubiquitous token
    holds a null pointer anywhere. *)
Theorem exception_free_assembly_is_complete (js_grammar : JsValue) (iso iso' : Isolate)
    (grammar : Grammar) (ok : bool) :
  assemble js_grammar iso = Returns (grammar, ok) iso' ->
  scheduled_exception iso' = None ->
  ok = true /\ complete_grammar grammar = true.
Proof.
  intros H Hafter. apply GrammarFromJsGrammar_shaped_inv in H.
  destruct H as (e & -> & _ & _ & Hc).
  destruct e as [x|]; [discriminate|]. apply (Hc eq_refl).
Qed.

End AssemblerShape.

(* ================================================================== *)
(** * Further properties of the compilation invoker *)

Section InvokerShape.

Variable V8 : Conversions.
Variable tree_sitter_compile : Grammar -> string -> string * option GrammarError.

Local Abbreviation assemble := (GrammarFromJsGrammar V8).
Local Abbreviation run := (Compile V8 tree_sitter_compile).

(** X11.  One call of [Compile] calls the compiler at most once.  A call
    that returns has found a string form [text] of the grammar's [name], and
    either it hands back [undefined], has not called the compiler and leaves
    an exception scheduled; or it has called the compiler exactly once, with
    the C++ string of [text], and hands back the code the compiler
    answered. *)
Theorem compiler_called_at_most_once (args0 : JsValue) (iso iso' : Isolate)
    (result : JsValue) :
  run args0 iso = Returns result iso' ->
  exists text,
    ToString V8 (property args0 "name") = Some text /\
    let name := c_str text in
    (result = JsUndefined /\ compiler_calls iso' = compiler_calls iso /\
     scheduled_exception iso' <> None) \/
    (exists grammar,
       compiler_calls iso' = compiler_calls iso ++ [(grammar, name)] /\
       result = JsString (fst (tree_sitter_compile grammar name))).
Proof.
  intros Hrun.
  destruct (Compile_Returns V8 tree_sitter_compile _ _ _ _ Hrun) as (Hobj & text & Htext).
  exists text. split; [exact Htext|]. intros name.
  rewrite (Compile_object V8 tree_sitter_compile _ text) in Hrun by assumption.
  cbv zeta in Hrun.
  destruct (assemble args0 _) as [[grammar ok] iso1| |] eqn:Hasm; try discriminate.
  apply GrammarFromJsGrammar_shaped_inv in Hasm.
  destruct Hasm as (e & -> & _ & Hfail & _). destruct ok.
  - right. exists grammar. injection Hrun as <- <-. simpl.
    rewrite !compiler_calls_throw_of. split; reflexivity.
  - left. injection Hrun as <- <-. rewrite !compiler_calls_throw_of.
    repeat split. destruct (Hfail eq_refl) as (_ & x & -> & _). discriminate.
Qed.

(** X12.  A call of [Compile] that ends without a scheduled exception went
    all the way: the grammar's [name] is a string, the compiler was called
    once, with the C++ string of that name and a Grammar in which no pointer
    is null, it accepted the grammar, and the value handed back is its
    code. *)
Theorem silent_call_compiled_a_complete_grammar (args0 : JsValue) (iso iso' : Isolate)
    (result : JsValue) :
  run args0 iso = Returns result iso' ->
  scheduled_exception iso' = None ->
  exists text,
    property args0 "name" = JsString text /\
    let name := c_str text in
    exists grammar code,
      complete_grammar grammar = true /\
      tree_sitter_compile grammar name = (code, None) /\
      result = JsString code /\
      compiler_calls iso' = compiler_calls iso ++ [(grammar, name)].
Proof.
  intros Hrun Hafter.
  destruct (Compile_Returns V8 tree_sitter_compile _ _ _ _ Hrun) as (Hobj & text & Htext).
  rewrite (Compile_object V8 tree_sitter_compile _ text) in Hrun by assumption.
  cbv zeta in Hrun.
  destruct (assemble args0 _) as [[grammar ok] iso1| |] eqn:Hasm; try discriminate.
  apply GrammarFromJsGrammar_shaped_inv in Hasm.
  destruct Hasm as (e & -> & _ & Hfail & Hc).
  rewrite throw_of_later in Hrun. destruct ok.
  - injection Hrun as <- <-. simpl in Hafter.
    destruct (tree_sitter_compile grammar (c_str text)) as [code [err|]] eqn:Hanswer;
      simpl in Hafter; [discriminate|].
    destruct (later _ e) as [x|] eqn:Hlater; [discriminate|].
    apply later_None_inv in Hlater. destruct Hlater as [Hname He].
    destruct (property args0 "name") as [| | | |s| |] eqn:Hprop;
      try discriminate Hname.
    simpl in Htext. injection Htext as <-.
    exists s. split; [reflexivity|]. intros name.
    exists grammar, code. rewrite compiler_calls_throw_of. simpl.
    split; [apply (Hc He) | split; [exact Hanswer | split; reflexivity]].
  - injection Hrun as _ <-. destruct (Hfail eq_refl) as (_ & y & -> & _).
    simpl in Hafter. discriminate.
Qed.

End InvokerShape.

(* ================================================================== *)
(** * The conversion of strings *)

Lemma c_str_no_nul (s : string) : ~ In Ascii.zero (chars (c_str s)).
Proof.
  induction s as [|c rest IH]; simpl; [tauto|].
  destruct (Ascii.eqb c Ascii.zero) eqn:Hc; simpl; [tauto|].
  intros [H | H]; [|exact (IH H)].
  apply Ascii.eqb_neq in Hc. congruence.
Qed.

Lemma c_str_prefix (s : string) : exists rest, s = String.append (c_str s) rest.
Proof.
  induction s as [|c rest IH]; simpl; [exists ""; reflexivity|].
  destruct (Ascii.eqb c Ascii.zero); simpl.
  - eexists. reflexivity.
  - destruct IH as (rest' & Hrest). exists rest'. rewrite <- Hrest. reflexivity.
Qed.

Lemma c_str_fixed (s : string) : c_str s = s <-> ~ In Ascii.zero (chars s).
Proof.
  split.
  - intros H. rewrite <- H. apply c_str_no_nul.
  - induction s as [|c rest IH]; simpl; intros H; [reflexivity|].
    destruct (Ascii.eqb c Ascii.zero) eqn:Hc.
    + apply Ascii.eqb_eq in Hc. exfalso. apply H. left. exact Hc.
    + rewrite IH; [reflexivity|]. intros Hin. apply H. right. exact Hin.
Qed.

Section StringConversion.

Variable V8 : Conversions.

(** X13.  [StringFromJsString] yields a C string or does not return.  When
    the value has a string form, the conversion returns, leaves the isolate
    alone, and its result holds no NUL character and is the beginning of the
    string form; it is the whole string form exactly when that form holds no
    NUL character.  When the value has no string form, the conversion does
    not return. *)
Theorem StringFromJsString_is_C_string (js_string : JsValue) (iso : Isolate) :
  match ToString V8 js_string with
  | Some text =>
      exists s,
        StringFromJsString V8 js_string iso = Returns s iso /\
        ~ In Ascii.zero (chars s) /\
        (exists rest, text = String.append s rest) /\
        (s = text <-> ~ In Ascii.zero (chars text))
  | None => StringFromJsString V8 js_string iso = UndefinedBehaviour
  end.
Proof.
  unfold StringFromJsString. destruct (ToString V8 js_string) as [text|]; [|reflexivity].
  exists (c_str text). split; [reflexivity|]. split; [apply c_str_no_nul|].
  split; [apply c_str_prefix | apply c_str_fixed].
Qed.

End StringConversion.

(* ================================================================== *)
(** * The further properties at sample inputs *)

Lemma unknown_tag_is_named_witness :
  RuleFromJsRule sample_V8 js_unknown fresh_isolate =
  Returns None (throw_of (Some (NanError "Unexpected rule type: FOO")) fresh_isolate).
Proof.
  apply (unknown_tag_is_named sample_V8 js_unknown "FOO" eq_refl eq_refl).
  simpl. intros H. repeat (destruct H as [H | H]; [discriminate H|]). exact H.
Defined.

Lemma descriptor_head_checks_witness :
  RuleFromJsRule sample_V8 (JsNumber 5) fresh_isolate =
    Returns None
      (throw_of (Some (NanTypeError "Expected rule to be an object")) fresh_isolate) /\
  RuleFromJsRule sample_V8 (JsArray []) fresh_isolate =
    Returns None
      (throw_of (Some (NanTypeError "Expected rule type to be a string")) fresh_isolate).
Proof.
  split.
  - apply (proj1 (descriptor_head_checks sample_V8 (JsNumber 5) fresh_isolate)).
    reflexivity.
  - apply (proj2 (descriptor_head_checks sample_V8 (JsArray []) fresh_isolate));
      reflexivity.
Defined.

Lemma only_five_fields_are_read_witness :
  RuleFromJsRule sample_V8 js_string_reordered fresh_isolate =
  RuleFromJsRule sample_V8 (js_string "a") fresh_isolate.
Proof.
  apply (only_five_fields_are_read sample_V8 js_string_reordered
           (js_string "a") eq_refl eq_refl).
  intros key [<- | [<- | [<- | [<- | [<- | []]]]]]; reflexivity.
Defined.

(** A precedence level given as an object with a [toString] of its own: the
    fourth exception, next to a node of level 0. *)
Lemma builder_raises_four_errors_witness :
  let rule := Some (Precedence 0 (Some Blank)) in
  let iso' := throw_of (Some no_primitive_value) fresh_isolate in
  (iso' = fresh_isolate /\ rule <> None) \/
  exists x, (builder_error x \/ (x = no_primitive_value /\ rule <> None)) /\
            iso' = {| scheduled_exception := Some x;
                      compiler_calls := compiler_calls fresh_isolate |}.
Proof.
  exact (builder_raises_four_errors sample_V8 js_prec_of_object
           fresh_isolate _ (Some (Precedence 0 (Some Blank))) eq_refl).
Defined.

Lemma null_only_under_wrappers_witness : guarded (Repeat None) = true.
Proof.
  exact (null_only_under_wrappers sample_V8 js_repeat_of_unknown
           fresh_isolate _ (Repeat None) eq_refl).
Defined.

Lemma no_exception_no_null_witness :
  exists r, Some (Sequence [Some (StringLiteral "a"); Some Blank]) = Some r /\
            complete r = true.
Proof.
  exact (no_exception_no_null sample_V8 js_seq_example
           fresh_isolate fresh_isolate _ eq_refl eq_refl).
Defined.

(** The second rule is invalid: its error surfaces, whatever the third rule
    and the [ubiquitous] field are. *)
Lemma first_failing_rule_aborts_assembly_witness :
  exists x,
    x = NanError "Unexpected rule type: FOO" /\
    forall iso,
      GrammarFromJsGrammar sample_V8 js_grammar_with_invalid_rule iso =
      Returns (Grammar_of [], false) (throw_of (Some x) iso).
Proof.
  assert (Hpre : forall p, In p ["a"] ->
            exists iso1 r iso2,
              RuleFromJsRule sample_V8
                (property js_rules_with_invalid p) iso1 = Returns (Some r) iso2).
  { intros p [<- | []]. exists fresh_isolate, Blank, fresh_isolate. reflexivity. }
  destruct (first_failing_rule_aborts_assembly sample_V8
              js_grammar_with_invalid_rule ["a"] ["c"] "b" fresh_isolate
              (throw_of (Some (NanError "Unexpected rule type: FOO")) fresh_isolate)
              eq_refl eq_refl eq_refl Hpre eq_refl) as (x & Hx & Hrun).
  exists x. split; [|exact Hrun]. simpl in Hx. injection Hx as <-. reflexivity.
Defined.

Lemma failed_assembly_is_empty_witness :
  Grammar_of [] = Grammar_of [] /\
  exists x,
    scheduled_exception
      (throw_of (Some (NanTypeError "Expected ubiquitous_tokens to be an array"))
                fresh_isolate) = Some x /\
    assembler_error x.
Proof.
  exact (failed_assembly_is_empty sample_V8 js_grammar_bad_ubiquitous
           fresh_isolate _ (Grammar_of []) eq_refl).
Defined.

(** Two tokens, the second invalid: two entries, the second null. *)
Lemma ubiquitous_tokens_keep_order_witness :
  exists tokens iso',
    GrammarFromJsGrammar sample_V8 js_grammar_with_tokens fresh_isolate =
      Returns ({| rules := [("b", Some Blank); ("a", Some (StringLiteral "x"))];
                  ubiquitous_tokens := tokens |}, true) iso' /\
    Forall2 (fun t rule =>
               forall iso0, exists iso0',
                 RuleFromJsRule sample_V8 t iso0 = Returns rule iso0')
            [js_string " "; js_unknown] tokens.
Proof.
  apply (ubiquitous_tokens_keep_order sample_V8 js_grammar_with_tokens
           [js_string " "; js_unknown] [("b", Some Blank); ("a", Some (StringLiteral "x"))]
           fresh_isolate fresh_isolate eq_refl eq_refl eq_refl eq_refl).
  intros t [<- | [<- | []]].
  - exists fresh_isolate, (Some (StringLiteral " ")), fresh_isolate. reflexivity.
  - exists fresh_isolate, None, (throw_of (Some (NanError "Unexpected rule type: FOO"))
                                          fresh_isolate).
    reflexivity.
Defined.

Lemma exception_free_assembly_is_complete_witness :
  true = true /\
  complete_grammar {| rules := [("b", Some Blank); ("a", Some (StringLiteral "x"))];
                      ubiquitous_tokens := [] |} = true.
Proof.
  exact (exception_free_assembly_is_complete sample_V8 js_grammar_b_a
           fresh_isolate fresh_isolate _ true eq_refl eq_refl).
Defined.

Lemma compiler_called_at_most_once_witness :
  let iso' :=
    {| scheduled_exception := None;
       compiler_calls :=
         [(Grammar_of [("b", Some Blank); ("a", Some (StringLiteral "x"))], "g")] |} in
  exists text,
    ToString sample_V8 (property js_grammar_b_a "name") = Some text /\
    let name := c_str text in
    (JsString "/* parser */" = JsUndefined /\
     compiler_calls iso' = compiler_calls fresh_isolate /\
     scheduled_exception iso' <> None) \/
    (exists grammar,
       compiler_calls iso' = compiler_calls fresh_isolate ++ [(grammar, name)] /\
       JsString "/* parser */" = JsString (fst (accepting_compiler grammar name))).
Proof.
  exact (compiler_called_at_most_once sample_V8 accepting_compiler
           js_grammar_b_a fresh_isolate _ (JsString "/* parser */") eq_refl).
Defined.

Lemma silent_call_compiled_a_complete_grammar_witness :
  let iso' :=
    {| scheduled_exception := None;
       compiler_calls :=
         [(Grammar_of [("b", Some Blank); ("a", Some (StringLiteral "x"))], "g")] |} in
  exists text,
    property js_grammar_b_a "name" = JsString text /\
    let name := c_str text in
    exists grammar code,
      complete_grammar grammar = true /\
      accepting_compiler grammar name = (code, None) /\
      JsString "/* parser */" = JsString code /\
      compiler_calls iso' = compiler_calls fresh_isolate ++ [(grammar, name)].
Proof.
  exact (silent_call_compiled_a_complete_grammar sample_V8 accepting_compiler
           js_grammar_b_a fresh_isolate _ (JsString "/* parser */") eq_refl eq_refl).
Defined.

(** A text without NUL comes through whole; one with a NUL is cut there; an
    object with a [toString] of its own has no string form. *)
Lemma StringFromJsString_is_C_string_witness :
  (exists s, StringFromJsString sample_V8 (JsString "foo") fresh_isolate =
               Returns s fresh_isolate /\ s = "foo") /\
  (exists s, StringFromJsString sample_V8 (JsString text_with_nul) fresh_isolate =
               Returns s fresh_isolate /\ s <> text_with_nul) /\
  StringFromJsString sample_V8 js_object_with_toString fresh_isolate = UndefinedBehaviour.
Proof.
  split; [|split].
  - destruct (StringFromJsString_is_C_string sample_V8 (JsString "foo") fresh_isolate)
      as (s & Hrun & _ & _ & Hwhole).
    exists s. split; [exact Hrun|]. apply (proj2 Hwhole).
    simpl. intros H. repeat (destruct H as [H | H]; [discriminate H|]). exact H.
  - destruct (StringFromJsString_is_C_string sample_V8 (JsString text_with_nul)
                fresh_isolate) as (s & Hrun & _ & _ & Hwhole).
    exists s. split; [exact Hrun|]. intros H. apply (proj1 Hwhole H).
    simpl. right. left. reflexivity.
  - exact (StringFromJsString_is_C_string sample_V8 js_object_with_toString fresh_isolate).
Defined.
